(** * The MCP HTTP proxy (index.js): a shallow embedding and its properties

    The proxy reads line-delimited JSON-RPC messages on standard input, posts
    each non-blank line to a remote server and prints the answer on standard
    output, after rewriting some "Method not found" (-32601) answers.

    The three event handlers of index.js are embedded as functions in a small
    effect monad (a trace of writes, with JavaScript's early [return] and
    exceptions).  What the platform provides (JSON.parse, JSON.stringify, the
    printing of numbers) is an interface, [Platform]: the properties hold for
    every instance, and a reference instance runs the handlers on texts. *)

From Stdlib Require Import List ZArith NArith Bool Ascii String Lia.
From Stdlib Require Import PrimFloat FloatOps SpecFloat.
Import ListNotations.
Local Open Scope list_scope.

(** ** JavaScript strings

    A JavaScript string is a sequence of UTF-16 code units. *)

Definition jsstring := list N.

(** The string written with the ASCII characters of [s]. *)
Definition js (s : string) : jsstring :=
  map N_of_ascii (list_ascii_of_string s).

(** A text in which an apostrophe stands for a quotation mark of the
    represented string: JSON texts are written this way below. *)
Definition json_text (s : string) : jsstring :=
  map (fun c => if (c =? 0x27)%N then 0x22%N else c) (js s).

(** The line feed, written as the escape \n in the source. *)
Definition LF : jsstring := [10%N].

Fixpoint jsstring_eqb (a b : jsstring) : bool :=
  match a, b with
  | [], [] => true
  | x :: a', y :: b' => N.eqb x y && jsstring_eqb a' b'
  | _, _ => false
  end.

(** ECMAScript's WhiteSpace and LineTerminator code points: what
    String.prototype.trim strips. *)
Definition is_white_space (c : N) : bool :=
  ((c =? 0x9) || (c =? 0xB) || (c =? 0xC) || (c =? 0x20) || (c =? 0xA0)
   || (c =? 0x1680) || ((0x2000 <=? c) && (c <=? 0x200A))
   || (c =? 0x202F) || (c =? 0x205F) || (c =? 0x3000) || (c =? 0xFEFF))%N.

Definition is_line_terminator (c : N) : bool :=
  ((c =? 0xA) || (c =? 0xD) || (c =? 0x2028) || (c =? 0x2029))%N.

Definition is_trimmed (c : N) : bool :=
  is_white_space c || is_line_terminator c.

Fixpoint trimStart (s : jsstring) : jsstring :=
  match s with
  | [] => []
  | c :: rest => if is_trimmed c then trimStart rest else s
  end.

Definition trimEnd (s : jsstring) : jsstring := rev (trimStart (rev s)).

(** [s.trim()] *)
Definition trim (s : jsstring) : jsstring := trimEnd (trimStart s).

(** ** UTF-8: what Node writes on the wire for a string

    [req.write(line)] sends the UTF-8 encoding of [line], and
    [Buffer.byteLength(line)] counts the bytes of that encoding.  A surrogate
    pair is one code point of four bytes; a lone surrogate is encoded as
    U+FFFD. *)

Definition is_high_surrogate (c : N) : bool := ((0xD800 <=? c) && (c <=? 0xDBFF))%N.
Definition is_low_surrogate (c : N) : bool := ((0xDC00 <=? c) && (c <=? 0xDFFF))%N.

Definition utf8_of_code_point (p : N) : list N :=
  (if p <? 0x80 then [p]
   else if p <? 0x800 then [0xC0 + p / 64; 0x80 + p mod 64]
   else if p <? 0x10000 then
     [0xE0 + p / 4096; 0x80 + (p / 64) mod 64; 0x80 + p mod 64]
   else
     [0xF0 + p / 262144; 0x80 + (p / 4096) mod 64;
      0x80 + (p / 64) mod 64; 0x80 + p mod 64])%N.

Definition utf8_replacement : list N := [0xEF; 0xBF; 0xBD]%N.

Fixpoint utf8_encode (s : jsstring) : list N :=
  match s with
  | [] => []
  | c :: rest =>
      if is_high_surrogate c then
        match rest with
        | d :: rest' =>
            if is_low_surrogate d then
              utf8_of_code_point
                (0x10000 + (c - 0xD800) * 1024 + (d - 0xDC00))%N
              ++ utf8_encode rest'
            else utf8_replacement ++ utf8_encode rest
        | [] => utf8_replacement
        end
      else if is_low_surrogate c then utf8_replacement ++ utf8_encode rest
      else utf8_of_code_point c ++ utf8_encode rest
  end.

(** [Buffer.byteLength(s)] (encoding utf8, the default): the number of
    bytes of the encoding. *)
Definition Buffer_byteLength (s : jsstring) : N :=
  N.of_nat (List.length (utf8_encode s)).

(** ** UTF-8: what Node reads from a Buffer

    [data += chunk] converts the Buffer [chunk] to a string: it decodes its
    bytes as UTF-8, each chunk on its own.  The decoder is the one of the
    Encoding Standard, which Node follows: a sequence that is not well formed
    or that the end of the bytes cuts short gives U+FFFD, and the decoding
    resumes at the byte that broke the sequence.  The state is the number of
    continuation bytes still needed, the code point so far, and the bounds of
    the next byte. *)

Definition utf8_idle : N * N * N * N := (0, 0, 0x80, 0xBF)%N.

(** A byte read when no sequence is open: what it gives, and the state. *)
Definition utf8_lead (b : N) : jsstring * (N * N * N * N) :=
  (if b <? 0x80 then ([b], utf8_idle)
   else if (0xC2 <=? b) && (b <=? 0xDF) then ([], (1, b mod 32, 0x80, 0xBF))
   else if (0xE0 <=? b) && (b <=? 0xEF) then
     ([], (2, b mod 16,
           if b =? 0xE0 then 0xA0 else 0x80,
           if b =? 0xED then 0x9F else 0xBF))
   else if (0xF0 <=? b) && (b <=? 0xF4) then
     ([], (3, b mod 8,
           if b =? 0xF0 then 0x90 else 0x80,
           if b =? 0xF4 then 0x8F else 0xBF))
   else ([0xFFFD], utf8_idle))%N.

(** The code units of a code point: itself, or a surrogate pair. *)
Definition code_units_of (p : N) : jsstring :=
  (if p <? 0x10000 then [p]
   else [0xD800 + (p - 0x10000) / 1024; 0xDC00 + (p - 0x10000) mod 1024])%N.

Fixpoint utf8_decode_from (state : N * N * N * N) (bytes : list N) : jsstring :=
  match bytes with
  | [] => let '(needed, _, _, _) := state in
          if (needed =? 0)%N then [] else [0xFFFD%N]
  | b :: rest =>
      let '(needed, code_point, lower, upper) := state in
      if (needed =? 0)%N then
        let (out, next) := utf8_lead b in out ++ utf8_decode_from next rest
      else if ((lower <=? b) && (b <=? upper))%N then
        let code_point' := (code_point * 64 + b mod 64)%N in
        if (needed =? 1)%N then
          code_units_of code_point' ++ utf8_decode_from utf8_idle rest
        else utf8_decode_from ((needed - 1)%N, code_point', 0x80%N, 0xBF%N) rest
      else
        let (out, next) := utf8_lead b in
        0xFFFD%N :: out ++ utf8_decode_from next rest
  end.

(** [chunk.toString()] (encoding utf8, the default), for the bytes of a
    Buffer. *)
Definition Buffer_toString (bytes : list N) : jsstring :=
  utf8_decode_from utf8_idle bytes.

(** A string whose surrogates come in pairs, a high one and then a low one:
    the strings that UTF-8 encodes without loss. *)
Fixpoint well_formed (s : jsstring) : bool :=
  match s with
  | [] => true
  | c :: rest =>
      if is_high_surrogate c then
        match rest with
        | d :: rest' => is_low_surrogate d && well_formed rest'
        | [] => false
        end
      else negb (is_low_surrogate c) && (c <? 0x10000)%N && well_formed rest
  end.

(** ** JavaScript values

    The values the program handles: [undefined] (an unassigned variable, an
    absent property) and what JSON.parse builds.  A number is an IEEE 754
    binary64 value; an object lists its own properties in order, each name at
    most once. *)

#[local] Set Warnings "-register-all".

Inductive JSValue : Type :=
| JSUndefined
| JSNull
| JSBoolean (b : bool)
| JSNumber (x : float)
| JSString (s : jsstring)
| JSArray (elements : list JSValue)
| JSObject (properties : list (jsstring * JSValue)).

(** The own property [name] of a property list. *)
Fixpoint own_property (name : jsstring) (properties : list (jsstring * JSValue))
  : option JSValue :=
  match properties with
  | [] => None
  | (k, v) :: rest => if jsstring_eqb k name then Some v else own_property name rest
  end.

(** ToBoolean: the test of [if], [?:], [!], [&&] and [||]. *)
Definition truthy (v : JSValue) : bool :=
  match v with
  | JSUndefined | JSNull => false
  | JSBoolean b => b
  | JSNumber x => negb (PrimFloat.eqb x 0 || PrimFloat.is_nan x)
  | JSString s => match s with [] => false | _ => true end
  | JSArray _ | JSObject _ => true
  end.

(** [v === p] for a right operand [p] that is [undefined], a number or a
    string, as in the three comparisons of the program.  (Two objects would
    be compared by identity, which the program never does.) *)
Definition strict_equals (v p : JSValue) : bool :=
  match v, p with
  | JSUndefined, JSUndefined => true
  | JSNull, JSNull => true
  | JSBoolean a, JSBoolean b => Bool.eqb a b
  | JSNumber x, JSNumber y => PrimFloat.eqb x y
  | JSString s, JSString t => jsstring_eqb s t
  | _, _ => false
  end.

(** ** Exceptions and expressions *)

Inductive JSError : Type :=
| SyntaxError (message : jsstring)
| TypeError (message : jsstring).

(** [e.message] *)
Definition message (e : JSError) : jsstring :=
  match e with SyntaxError m | TypeError m => m end.

(** The result of evaluating an expression: a value, or an exception. *)
Inductive Completion (A : Type) : Type :=
| Normal (a : A)
| Throw (e : JSError).
Arguments Normal {A} a.
Arguments Throw {A} e.

Definition cbind {A B} (c : Completion A) (k : A -> Completion B) : Completion B :=
  match c with
  | Normal a => k a
  | Throw e => Throw e
  end.

Notation "'let?' x ':=' c 'in' k" := (cbind c (fun x => k))
  (at level 10, x name, c at level 100, k at level 200).

(** [a && b] on conditions: [b] is evaluated only when [a] holds. *)
Definition and_then (a b : Completion bool) : Completion bool :=
  let? x := a in if x then b else Normal false.

Infix "&&&" := and_then (at level 40, left associativity).

(** [base.name].  Reading a property of [undefined] or [null] throws (the
    message is V8's).  Only own properties are modelled: no built-in
    prototype defines [method], [id], [error] or [code], the names the program
    reads, and these are not indices or [length] of a string or an array. *)
Definition Get (base : JSValue) (name : jsstring) : Completion JSValue :=
  match base with
  | JSUndefined =>
      Throw (TypeError (js "Cannot read properties of undefined (reading '"
                          ++ name ++ js "')"))
  | JSNull =>
      Throw (TypeError (js "Cannot read properties of null (reading '"
                          ++ name ++ js "')"))
  | JSObject properties =>
      Normal (match own_property name properties with
              | Some v => v
              | None => JSUndefined
              end)
  | _ => Normal JSUndefined
  end.

(** ** Effects

    A handler writes to standard output and to standard error, and starts
    HTTP requests.  A statement ends normally, by [return], or by an
    exception. *)

Record Headers : Type := {
  Content_Type : jsstring;
  Content_Length : N
}.

Record RequestOptions : Type := {
  hostname : jsstring;
  port : JSValue;
  path : jsstring;
  method : jsstring;
  headers : Headers
}.

Inductive Event : Type :=
| HttpRequest (https : bool) (options : RequestOptions) (body : jsstring)
    (* httpModule.request(options, ...), req.write(body), req.end() *)
| Stdout (text : jsstring)   (* the characters written to process.stdout *)
| Stderr (text : jsstring).  (* the characters written to process.stderr *)

Inductive Signal (A : Type) : Type :=
| Next (a : A)
| Returned
| Thrown (e : JSError).
Arguments Next {A} a.
Arguments Returned {A}.
Arguments Thrown {A} e.

Definition Eff (A : Type) : Type := (list Event * Signal A)%type.

Definition ret {A} (a : A) : Eff A := ([], Next a).

Definition bind {A B} (m : Eff A) (k : A -> Eff B) : Eff B :=
  match m with
  | (tr, Next a) => let (tr', s) := k a in (tr ++ tr', s)
  | (tr, Returned) => (tr, Returned)
  | (tr, Thrown e) => (tr, Thrown e)
  end.

Notation "x <- c1 ;; c2" := (bind c1 (fun x => c2))
  (at level 61, c1 at next level, right associativity).
Notation "c1 ;; c2" := (bind c1 (fun _ => c2))
  (at level 61, right associativity).

Definition emit (e : Event) : Eff unit := ([e], Next tt).

(** [return;] *)
Definition return_ : Eff unit := ([], Returned).

(** An expression evaluated inside a statement. *)
Definition eval {A} (c : Completion A) : Eff A :=
  match c with
  | Normal a => ret a
  | Throw e => ([], Thrown e)
  end.

(** [try { body } catch (e) { handler }] *)
Definition try_catch (body : Eff unit) (handler : JSError -> Eff unit) : Eff unit :=
  match body with
  | (tr, Thrown e) => let (tr', s) := handler e in (tr ++ tr', s)
  | other => other
  end.

(** The call of a function with body [body]: [return] ends the call. *)
Definition call (body : Eff unit) : Eff unit :=
  match body with
  | (tr, Returned) => (tr, Next tt)
  | other => other
  end.

(** [if (c) { body }] *)
Definition when (c : bool) (body : Eff unit) : Eff unit :=
  if c then body else ret tt.

(** [console.log(s)], [console.error(s)]: the string and a line feed. *)
Definition console_log (s : jsstring) : Eff unit := emit (Stdout (s ++ LF)).
Definition console_error (s : jsstring) : Eff unit := emit (Stderr (s ++ LF)).

(** [process.stderr.write(s)] *)
Definition process_stderr_write (s : jsstring) : Eff unit := emit (Stderr s).

Definition events {A} (m : Eff A) : list Event := fst m.
Definition signal {A} (m : Eff A) : Signal A := snd m.

(** The writes to standard output, to standard error, and the requests of a
    trace. *)
Fixpoint stdout_writes (tr : list Event) : list jsstring :=
  match tr with
  | [] => []
  | Stdout text :: rest => text :: stdout_writes rest
  | _ :: rest => stdout_writes rest
  end.

(** The number of line feeds of a text: the lines that a reader of the
    stream sees in it. *)
Definition line_feeds (text : jsstring) : nat :=
  List.length (filter (N.eqb 10) text).

Fixpoint stderr_writes (tr : list Event) : list jsstring :=
  match tr with
  | [] => []
  | Stderr text :: rest => text :: stderr_writes rest
  | _ :: rest => stderr_writes rest
  end.

Fixpoint http_requests (tr : list Event) : list (RequestOptions * jsstring) :=
  match tr with
  | [] => []
  | HttpRequest _ options body :: rest => (options, body) :: http_requests rest
  | _ :: rest => http_requests rest
  end.

(** ** The platform

    What the program calls and does not define: [JSON.parse(text)], which
    gives a value or throws a SyntaxError; [JSON.stringify(value)]; and the
    decimal text of a number, as a template literal prints it. *)

Class Platform : Type := {
  JSON_parse : jsstring -> Completion JSValue;
  JSON_stringify : JSValue -> jsstring;
  Number_toString : float -> jsstring
}.

(** ** A reference platform

    JSON.parse and JSON.stringify after ECMA-262, on code units, so that the
    handlers can be run on texts.  The reader follows the JSON grammar and
    rounds a number to the nearest binary64 value; the text of its
    SyntaxError is not V8's, which quotes the offending token. *)

Module Reference.

Definition is_json_space (c : N) : bool :=
  ((c =? 0x20) || (c =? 0x9) || (c =? 0xA) || (c =? 0xD))%N.

Fixpoint skip_space (s : jsstring) : jsstring :=
  match s with
  | [] => []
  | c :: rest => if is_json_space c then skip_space rest else s
  end.

Definition is_digit (c : N) : bool := ((0x30 <=? c) && (c <=? 0x39))%N.

(** The leading decimal digits of [s], and what follows them. *)
Fixpoint read_digits (s : jsstring) : list N * jsstring :=
  match s with
  | [] => ([], [])
  | c :: rest =>
      if is_digit c then
        let (ds, rest') := read_digits rest in ((c - 0x30)%N :: ds, rest')
      else ([], s)
  end.

Definition digits_value (ds : list N) : Z :=
  fold_left (fun acc d => (10 * acc + Z.of_N d)%Z) ds 0%Z.

(** The binary64 value nearest to [m * 10 ^ e10] (ties to even), [m >= 0].
    A quotient is cut after more than 64 bits, with a sticky bit. *)
Definition decimal_to_float (negative : bool) (m e10 : Z) : float :=
  let signed (z : Z) := if negative then Z.opp z else z in
  if (0 <=? e10)%Z then
    SF2Prim (binary_normalize prec emax (signed (m * 10 ^ e10)%Z) 0 negative)
  else
    let d := (10 ^ (- e10))%Z in
    let s := (64 + Z.log2_up d)%Z in
    let q := ((m * 2 ^ s) / d)%Z in
    let sticky := if ((m * 2 ^ s) mod d =? 0)%Z then 0%Z else 1%Z in
    SF2Prim (binary_normalize prec emax (signed (2 * q + sticky)%Z) (- s - 1) negative).

(** A JSON number: an optional minus sign; an integer part, which is 0 or
    starts with a digit from 1 to 9; an optional fraction, a point and
    digits; an optional exponent, e or E, an optional sign and digits. *)
Definition read_number (s : jsstring) : option (float * jsstring) :=
  let (negative, s1) :=
    match s with
    | c :: rest => if (c =? 0x2D)%N then (true, rest) else (false, s)
    | [] => (false, s)
    end in
  let (int_digits, s2) := read_digits s1 in
  match int_digits with
  | [] => None
  | d :: more =>
      if (d =? 0)%N && negb (match more with [] => true | _ => false end)
      then None
      else
        let fraction :=
          match s2 with
          | c :: rest =>
              if (c =? 0x2E)%N then
                let (ds, rest') := read_digits rest in
                match ds with
                | [] => None
                | _ => Some (ds, rest')
                end
              else Some ([], s2)
          | [] => Some ([], s2)
          end in
        match fraction with
        | None => None
        | Some (frac_digits, s3) =>
            let exponent :=
              match s3 with
              | c :: rest =>
                  if ((c =? 0x65) || (c =? 0x45))%N then
                    let (exp_negative, rest1) :=
                      match rest with
                      | g :: rest' =>
                          if (g =? 0x2D)%N then (true, rest')
                          else if (g =? 0x2B)%N then (false, rest')
                          else (false, rest)
                      | [] => (false, rest)
                      end in
                    let (ds, rest2) := read_digits rest1 in
                    match ds with
                    | [] => None
                    | _ =>
                        Some ((if exp_negative then - digits_value ds
                               else digits_value ds)%Z, rest2)
                    end
                  else Some (0%Z, s3)
              | [] => Some (0%Z, s3)
              end in
            match exponent with
            | None => None
            | Some (e, s4) =>
                Some (decimal_to_float negative
                        (digits_value (int_digits ++ frac_digits))
                        (e - Z.of_nat (List.length frac_digits))%Z,
                      s4)
            end
        end
  end.

Definition hex_value (c : N) : option N :=
  (if (0x30 <=? c) && (c <=? 0x39) then Some (c - 0x30)
   else if (0x41 <=? c) && (c <=? 0x46) then Some (c - 0x41 + 10)
   else if (0x61 <=? c) && (c <=? 0x66) then Some (c - 0x61 + 10)
   else None)%N.

(** The character that follows a backslash, other than [u]. *)
Definition escape_value (c : N) : option N :=
  (if c =? 0x22 then Some 0x22          (* quotation mark *)
   else if c =? 0x5C then Some 0x5C     (* backslash *)
   else if c =? 0x2F then Some 0x2F     (* / *)
   else if c =? 0x62 then Some 0x8      (* b *)
   else if c =? 0x66 then Some 0xC      (* f *)
   else if c =? 0x6E then Some 0xA      (* n *)
   else if c =? 0x72 then Some 0xD      (* r *)
   else if c =? 0x74 then Some 0x9      (* t *)
   else None)%N.

Definition prepend (c : N) (r : option (jsstring * jsstring))
  : option (jsstring * jsstring) :=
  match r with
  | Some (str, rest) => Some (c :: str, rest)
  | None => None
  end.

(** A string, after its opening quotation mark. *)
Fixpoint read_string (s : jsstring) : option (jsstring * jsstring) :=
  match s with
  | [] => None
  | c :: rest =>
      if (c =? 0x22)%N then Some ([], rest)
      else if (c =? 0x5C)%N then
        match rest with
        | [] => None
        | e :: rest1 =>
            if (e =? 0x75)%N then
              match rest1 with
              | h1 :: h2 :: h3 :: h4 :: rest2 =>
                  match hex_value h1, hex_value h2, hex_value h3, hex_value h4 with
                  | Some a, Some b, Some c', Some d =>
                      prepend (((a * 16 + b) * 16 + c') * 16 + d)%N
                              (read_string rest2)
                  | _, _, _, _ => None
                  end
              | _ => None
              end
            else
              match escape_value e with
              | Some u => prepend u (read_string rest1)
              | None => None
              end
        end
      else if (c <? 0x20)%N then None
      else prepend c (read_string rest)
  end.

(** The value of an array index: a canonical numeric string below
    2^32 - 1. *)
Definition array_index (name : jsstring) : option N :=
  match name with
  | [] => None
  | c :: more =>
      if forallb is_digit name
         && negb ((c =? 0x30)%N && negb (match more with [] => true | _ => false end))
      then
        let v := Z.to_N (digits_value (map (fun d => (d - 0x30)%N) name)) in
        if (v <? 4294967295)%N then Some v else None
      else None
  end.

(** CreateDataProperty, keeping the order in which an object enumerates
    its own properties: array indices first, in ascending order, then the
    other names in the order of their creation.  A name that is already
    there keeps its place and takes the new value. *)
Fixpoint define_property (name : jsstring) (v : JSValue)
  (properties : list (jsstring * JSValue)) : list (jsstring * JSValue) :=
  match properties with
  | [] => [(name, v)]
  | (k, w) :: rest =>
      if jsstring_eqb k name then (k, v) :: rest
      else
        match array_index name, array_index k with
        | Some i, Some j =>
            if (i <? j)%N then (name, v) :: properties
            else (k, w) :: define_property name v rest
        | Some _, None => (name, v) :: properties
        | None, _ => (k, w) :: define_property name v rest
        end
  end.

Definition starts_with (word s : jsstring) : option jsstring :=
  if jsstring_eqb (firstn (List.length word) s) word
  then Some (skipn (List.length word) s) else None.

(** A value and what follows it.  [fuel] bounds the nesting depth. *)
Fixpoint read_value (fuel : nat) (s : jsstring) : option (JSValue * jsstring) :=
  match fuel with
  | O => None
  | S fuel' =>
      let read_elements :=
        fix read_elements (n : nat) (acc : list JSValue) (s : jsstring)
          : option (JSValue * jsstring) :=
          match n with
          | O => None
          | S n' =>
              match read_value fuel' s with
              | None => None
              | Some (v, rest) =>
                  match skip_space rest with
                  | c :: rest' =>
                      if (c =? 0x2C)%N then read_elements n' (acc ++ [v]) rest'
                      else if (c =? 0x5D)%N then Some (JSArray (acc ++ [v]), rest')
                      else None
                  | [] => None
                  end
              end
          end in
      let read_members :=
        fix read_members (n : nat) (acc : list (jsstring * JSValue)) (s : jsstring)
          : option (JSValue * jsstring) :=
          match n with
          | O => None
          | S n' =>
              match skip_space s with
              | q :: s1 =>
                  if (q =? 0x22)%N then
                    match read_string s1 with
                    | None => None
                    | Some (name, s2) =>
                        match skip_space s2 with
                        | colon :: s3 =>
                            if (colon =? 0x3A)%N then
                              match read_value fuel' s3 with
                              | None => None
                              | Some (v, s4) =>
                                  let acc' := define_property name v acc in
                                  match skip_space s4 with
                                  | c :: s5 =>
                                      if (c =? 0x2C)%N then read_members n' acc' s5
                                      else if (c =? 0x7D)%N then Some (JSObject acc', s5)
                                      else None
                                  | [] => None
                                  end
                              end
                            else None
                        | [] => None
                        end
                    end
                  else None
              | [] => None
              end
          end in
      match skip_space s with
      | [] => None
      | c :: rest =>
          if (c =? 0x7B)%N then
            match skip_space rest with
            | c' :: rest' =>
                if (c' =? 0x7D)%N then Some (JSObject [], rest')
                else read_members (List.length s) [] rest
            | [] => None
            end
          else if (c =? 0x5B)%N then
            match skip_space rest with
            | c' :: rest' =>
                if (c' =? 0x5D)%N then Some (JSArray [], rest')
                else read_elements (List.length s) [] rest
            | [] => None
            end
          else if (c =? 0x22)%N then
            match read_string rest with
            | Some (str, rest') => Some (JSString str, rest')
            | None => None
            end
          else if (c =? 0x2D)%N || is_digit c then
            match read_number (c :: rest) with
            | Some (x, rest') => Some (JSNumber x, rest')
            | None => None
            end
          else
            match starts_with (js "true") (c :: rest),
                  starts_with (js "false") (c :: rest),
                  starts_with (js "null") (c :: rest) with
            | Some rest', _, _ => Some (JSBoolean true, rest')
            | _, Some rest', _ => Some (JSBoolean false, rest')
            | _, _, Some rest' => Some (JSNull, rest')
            | _, _, _ => None
            end
      end
  end.

(** [JSON.parse(text)] *)
Definition parse (text : jsstring) : Completion JSValue :=
  match read_value (S (List.length text)) text with
  | Some (v, rest) =>
      match skip_space rest with
      | [] => Normal v
      | _ => Throw (SyntaxError (js "Unexpected token in JSON"))
      end
  | None => Throw (SyntaxError (js "Unexpected token in JSON"))
  end.

(** The decimal digits of a natural number. *)
Fixpoint uint_digits (u : Decimal.uint) : jsstring :=
  match u with
  | Decimal.Nil => []
  | Decimal.D0 r => 0x30%N :: uint_digits r
  | Decimal.D1 r => 0x31%N :: uint_digits r
  | Decimal.D2 r => 0x32%N :: uint_digits r
  | Decimal.D3 r => 0x33%N :: uint_digits r
  | Decimal.D4 r => 0x34%N :: uint_digits r
  | Decimal.D5 r => 0x35%N :: uint_digits r
  | Decimal.D6 r => 0x36%N :: uint_digits r
  | Decimal.D7 r => 0x37%N :: uint_digits r
  | Decimal.D8 r => 0x38%N :: uint_digits r
  | Decimal.D9 r => 0x39%N :: uint_digits r
  end.

Definition decimal_digits (z : Z) : jsstring := uint_digits (N.to_uint (Z.to_N z)).

(** The least [n] with [num / den < 10 ^ n], searched upwards from [n]. *)
Fixpoint decimal_exponent (fuel : nat) (num den n : Z) : Z :=
  match fuel with
  | O => n
  | S fuel' =>
      let below :=
        if (0 <=? n)%Z then (num <? den * 10 ^ n)%Z
        else (num * 10 ^ (- n) <? den)%Z in
      if below then n else decimal_exponent fuel' num den (n + 1)%Z
  end.

(** Number::toString, step 5: the integers [s] and [n] for the positive
    value [x = num / den], with as few digits [k] as possible such that
    [s * 10 ^ (n - k)] reads back as [x]; of the two neighbours of [x] with
    [k] digits, the nearer one that does.  Searched upwards from [k]. *)
Fixpoint shortest_digits (fuel : nat) (x : float) (num den n k : Z) : Z * Z :=
  let scaled_num := if (n <=? k)%Z then (num * 10 ^ (k - n))%Z else num in
  let scaled_den := if (n <=? k)%Z then den else (den * 10 ^ (n - k))%Z in
  let low := (scaled_num / scaled_den)%Z in
  let remainder := (scaled_num mod scaled_den)%Z in
  let reads_back (s : Z) := PrimFloat.eqb (decimal_to_float false s (n - k)) x in
  let high_first := (scaled_den <? 2 * remainder)%Z in
  let first := if high_first then (low + 1)%Z else low in
  let second := if high_first then low else (low + 1)%Z in
  let normal (s : Z) := if (s =? 10 ^ k)%Z then (10 ^ (k - 1), n + 1)%Z else (s, n) in
  match fuel with
  | O => normal first
  | S fuel' =>
      if reads_back first then normal first
      else if reads_back second then normal second
      else shortest_digits fuel' x num den n (k + 1)%Z
  end.

Fixpoint strip_zeros (rev_digits : jsstring) : jsstring :=
  match rev_digits with
  | c :: rest => if (c =? 0x30)%N then strip_zeros rest else rev_digits
  | [] => []
  end.

(** Number::toString for radix 10. *)
Definition Number_toString (x : float) : jsstring :=
  match Prim2SF x with
  | S754_nan => js "NaN"
  | S754_zero _ => js "0"
  | S754_infinity negative => js (if negative then "-Infinity" else "Infinity")
  | S754_finite negative m e =>
      let num := if (0 <=? e)%Z then (Zpos m * 2 ^ e)%Z else Zpos m in
      let den := if (0 <=? e)%Z then 1%Z else (2 ^ (- e))%Z in
      let n0 := decimal_exponent 700 num den (-330)%Z in
      let (s, n) := shortest_digits 17 (PrimFloat.abs x) num den n0 1 in
      let digits := rev (strip_zeros (rev (decimal_digits s))) in
      let k := Z.of_nat (List.length digits) in
      let body :=
        if ((-5 <=? n) && (n <=? 21))%Z then
          if (k <=? n)%Z then digits ++ repeat 0x30%N (Z.to_nat (n - k))
          else if (0 <? n)%Z then
            firstn (Z.to_nat n) digits ++ js "." ++ skipn (Z.to_nat n) digits
          else js "0." ++ repeat 0x30%N (Z.to_nat (- n)) ++ digits
        else
          let exponent :=
            js (if (n <? 0)%Z then "e-" else "e+") ++ decimal_digits (Z.abs (n - 1)) in
          match digits with
          | [d] => [d] ++ exponent
          | d :: more => [d] ++ js "." ++ more ++ exponent
          | [] => exponent
          end in
      (if negative then js "-" else []) ++ body
  end.

Definition hex_digit (v : N) : N :=
  (if v <? 10 then 0x30 + v else 0x61 + (v - 10))%N.

(** The escape \uXXXX of a code unit. *)
Definition unicode_escape (c : N) : jsstring :=
  [0x5C; 0x75; hex_digit (c / 4096); hex_digit ((c / 256) mod 16);
   hex_digit ((c / 16) mod 16); hex_digit (c mod 16)]%N.

(** QuoteJSONString, between the quotation marks. *)
Fixpoint quote_characters (s : jsstring) : jsstring :=
  match s with
  | [] => []
  | c :: rest =>
      if (c =? 0x22)%N then [0x5C; 0x22]%N ++ quote_characters rest
      else if (c =? 0x5C)%N then [0x5C; 0x5C]%N ++ quote_characters rest
      else if (c =? 0x8)%N then [0x5C; 0x62]%N ++ quote_characters rest
      else if (c =? 0xC)%N then [0x5C; 0x66]%N ++ quote_characters rest
      else if (c =? 0xA)%N then [0x5C; 0x6E]%N ++ quote_characters rest
      else if (c =? 0xD)%N then [0x5C; 0x72]%N ++ quote_characters rest
      else if (c =? 0x9)%N then [0x5C; 0x74]%N ++ quote_characters rest
      else if (c <? 0x20)%N then unicode_escape c ++ quote_characters rest
      else if is_high_surrogate c then
        match rest with
        | d :: rest' =>
            if is_low_surrogate d then c :: d :: quote_characters rest'
            else unicode_escape c ++ quote_characters rest
        | [] => unicode_escape c
        end
      else if is_low_surrogate c then unicode_escape c ++ quote_characters rest
      else c :: quote_characters rest
  end.

Definition quote (s : jsstring) : jsstring :=
  [0x22%N] ++ quote_characters s ++ [0x22%N].

Fixpoint join_with (separator : jsstring) (parts : list jsstring) : jsstring :=
  match parts with
  | [] => []
  | [part] => part
  | part :: rest => part ++ separator ++ join_with separator rest
  end.

(** SerializeJSONProperty: [undefined] has no text; it is left out of an
    object and written [null] in an array.  (No value here has a callable
    [toJSON].) *)
Fixpoint serialize (v : JSValue) : option jsstring :=
  match v with
  | JSUndefined => None
  | JSNull => Some (js "null")
  | JSBoolean b => Some (js (if b then "true" else "false"))
  | JSNumber x => Some (if PrimFloat.is_finite x then Number_toString x else js "null")
  | JSString s => Some (quote s)
  | JSArray elements =>
      let parts :=
        (fix parts (l : list JSValue) : list jsstring :=
           match l with
           | [] => []
           | e :: rest =>
               match serialize e with
               | Some text => text
               | None => js "null"
               end :: parts rest
           end) elements in
      Some (js "[" ++ join_with (js ",") parts ++ js "]")
  | JSObject properties =>
      let parts :=
        (fix parts (l : list (jsstring * JSValue)) : list jsstring :=
           match l with
           | [] => []
           | (name, w) :: rest =>
               match serialize w with
               | Some text => (quote name ++ js ":" ++ text) :: parts rest
               | None => parts rest
               end
           end) properties in
      Some (js "{" ++ join_with (js ",") parts ++ js "}")
  end.

(** [JSON.stringify(v)], as [console.log] prints it. *)
Definition stringify (v : JSValue) : jsstring :=
  match serialize v with
  | Some text => text
  | None => js "undefined"
  end.

End Reference.

#[export] Instance reference_platform : Platform := {|
  JSON_parse := Reference.parse;
  JSON_stringify := Reference.stringify;
  Number_toString := Reference.Number_toString
|}.

(** ** The program

    [url] is the parsed command-line argument ([new URL(serverUrl)]); the
    start-up checks and the signal handlers follow the proxy, in [main]. *)

Record URL : Type := {
  url_protocol : jsstring;
  url_hostname : jsstring;
  url_port : jsstring;
  url_pathname : jsstring;
  url_search : jsstring
}.

(** The vocabulary of the specification, on parsed values: the field of a
    message, a response that contains an [error] object with a given [code],
    and the allow-listed methods with the name of their empty list. *)
Definition field (v : JSValue) (name : jsstring) : option JSValue :=
  match v with
  | JSObject properties => own_property name properties
  | _ => None
  end.

Definition has_error_code (response : JSValue) (code : float) : bool :=
  match field response (js "error") with
  | Some error =>
      match field error (js "code") with
      | Some (JSNumber c) => PrimFloat.eqb c code
      | _ => false
      end
  | None => false
  end.

Definition allow_listed (method_field : option JSValue) : option jsstring :=
  match method_field with
  | Some (JSString name) =>
      if jsstring_eqb name (js "prompts/list") then Some (js "prompts")
      else if jsstring_eqb name (js "resources/list") then Some (js "resources")
      else None
  | _ => None
  end.

(** What happens to a request once it is sent: the response arrives in
    chunks and ends; or the request fails with an error (connection refused,
    DNS failure, reset, ...); or neither event ever comes. *)
Inductive HttpOutcome : Type :=
| Responded (chunks : list jsstring)
| Failed (error_message : jsstring)
| Unanswered.

(** A response received as Buffers, the chunks of bytes of its body: the
    data handler gets the text of each. *)
Definition received (buffers : list (list N)) : HttpOutcome :=
  Responded (map Buffer_toString buffers).

(** The bytes that the writes of a trace put on standard output. *)
Definition stdout_bytes (tr : list Event) : list N :=
  flat_map utf8_encode (stdout_writes tr).

(** The decisions of the specification's Response Translator. *)
Inductive TranslationDecision : Type :=
| Drop
| Substitute (newResponse : jsstring)
| PassThrough.

Section Proxy.

Context {platform : Platform}.

(** The configuration. *)
Variable url : URL.

(** ToString, as a template literal applies it to a substitution.  An
    array is joined with commas ([undefined] and [null] elements give the
    empty string).  An object built by JSON.parse inherits
    Object.prototype.toString, unless it has an own property [toString]:
    that one is not callable, [valueOf] does not give a primitive either,
    and the conversion throws. *)
Fixpoint ToString (v : JSValue) : Completion jsstring :=
  match v with
  | JSUndefined => Normal (js "undefined")
  | JSNull => Normal (js "null")
  | JSBoolean b => Normal (js (if b then "true" else "false"))
  | JSNumber x => Normal (Number_toString x)
  | JSString s => Normal s
  | JSArray elements =>
      let element e :=
        match e with
        | JSUndefined | JSNull => Normal []
        | _ => ToString e
        end in
      (fix join (l : list JSValue) : Completion jsstring :=
         match l with
         | [] => Normal []
         | [e] => element e
         | e :: rest =>
             let? s := element e in
             let? r := join rest in
             Normal (s ++ js "," ++ r)
         end) elements
  | JSObject properties =>
      match own_property (js "toString") properties with
      | Some _ => Throw (TypeError (js "Cannot convert object to primitive value"))
      | None => Normal (js "[object Object]")
      end
  end.

(** [const isHttps = url.protocol === 'https:';] *)
Definition isHttps : bool := jsstring_eqb (url_protocol url) (js "https:").

(** [const method = request ? request.method : 'unknown';] *)
Definition request_method (request : JSValue) : Completion JSValue :=
  if truthy request then Get request (js "method")
  else Normal (JSString (js "unknown")).

(** [const requestId = request ? request.id : undefined;] *)
Definition request_id (request : JSValue) : Completion JSValue :=
  if truthy request then Get request (js "id") else Normal JSUndefined.

(** The values that [method] and [requestId] take: no exception can come
    from reading a property of a truthy value. *)
Definition method_value (request : JSValue) : JSValue :=
  if truthy request then
    match field request (js "method") with
    | Some m => m
    | None => JSUndefined
    end
  else JSString (js "unknown").

Definition id_value (request : JSValue) : JSValue :=
  if truthy request then
    match field request (js "id") with
    | Some i => i
    | None => JSUndefined
    end
  else JSUndefined.

(** [response.error && response.error.code === -32601] *)
Definition method_not_found (response : JSValue) : Completion bool :=
  (let? error := Get response (js "error") in Normal (truthy error))
  &&& (let? error := Get response (js "error") in
       let? code := Get error (js "code") in
       Normal (strict_equals code (JSNumber (-32601)))).

(** [{ jsonrpc: '2.0', id: requestId, result: { <list>: [] } }] *)
Definition empty_result (requestId : JSValue) (list_name : jsstring) : JSValue :=
  JSObject [(js "jsonrpc", JSString (js "2.0"));
            (js "id", requestId);
            (js "result", JSObject [(list_name, JSArray [])])].

(** [res.on('end', () => { ... })], with [request] and [data] of its
    closure. *)
Definition res_on_end (request : JSValue) (data : jsstring) : Eff unit :=
  try_catch
    (response <- eval (JSON_parse data) ;;
     method <- eval (request_method request) ;;
     requestId <- eval (request_id request) ;;
     c <- eval (method_not_found response
                &&& Normal (strict_equals requestId JSUndefined)) ;;
     when c
       (m <- eval (ToString method) ;;
        process_stderr_write
          (js "[PROXY] Dropped -32601 error for notification: " ++ m ++ LF) ;;
        return_) ;;
     c <- eval (method_not_found response &&& Normal (truthy request)) ;;
     when c
       (if strict_equals method (JSString (js "prompts/list")) then
          let converted := JSON_stringify (empty_result requestId (js "prompts")) in
          console_log converted ;;
          process_stderr_write
            (js "[PROXY] Converted prompts/list error to empty result" ++ LF) ;;
          return_
        else if strict_equals method (JSString (js "resources/list")) then
          let converted := JSON_stringify (empty_result requestId (js "resources")) in
          console_log converted ;;
          process_stderr_write
            (js "[PROXY] Converted resources/list error to empty result" ++ LF) ;;
          return_
        else ret tt))
    (fun e =>
       process_stderr_write (js "[PROXY] Parse error: " ++ message e ++ LF)) ;;
  console_log data.

(** [res.on('data', (chunk) => { data += chunk; })]: [chunk] is the text
    of the chunk. *)
Definition res_on_data (data chunk : jsstring) : jsstring := data ++ chunk.

(** The body as the end handler finds it in [data]. *)
Definition response_body (chunks : list jsstring) : jsstring :=
  fold_left res_on_data chunks [].

(** [req.on('error', (error) => { ... })], with [error.message]. *)
Definition req_on_error (error_message : jsstring) : Eff unit :=
  console_error (js "HTTP Error: " ++ error_message).

(** [let request; try { request = JSON.parse(line); } catch (e) { }] *)
Definition parsed_request (line : jsstring) : JSValue :=
  match JSON_parse line with
  | Normal request => request
  | Throw _ => JSUndefined
  end.

(** [const options = { ... }] *)
Definition request_options (line : jsstring) : RequestOptions :=
  {| hostname := url_hostname url;
     port := if truthy (JSString (url_port url)) then JSString (url_port url)
             else JSNumber (if isHttps then 443 else 80);
     path := url_pathname url ++ url_search url;
     method := js "POST";
     headers := {| Content_Type := js "application/json";
                   Content_Length := Buffer_byteLength line |} |}.

(** [rl.on('line', (line) => { ... })], followed by the handler that the
    outcome of the request triggers. *)
Definition rl_on_line (line : jsstring) (outcome : HttpOutcome) : Eff unit :=
  call
    (when (negb (truthy (JSString (trim line)))) return_ ;;
     let request := parsed_request line in
     let options := request_options line in
     emit (HttpRequest isHttps options line) ;;
     match outcome with
     | Responded chunks => call (res_on_end request (response_body chunks))
     | Failed error_message => call (req_on_error error_message)
     | Unanswered => ret tt
     end).

(** The process on a sequence of input lines, each with the outcome of its
    request.  An exception that leaves a handler ends the process.  The
    exchanges are taken one after the other: in the running process the
    handlers of several lines may interleave, but they share no variable, so
    each exchange has the trace given here. *)
Fixpoint proxy (input : list (jsstring * HttpOutcome)) : list Event :=
  match input with
  | [] => []
  | (line, outcome) :: rest =>
      match rl_on_line line outcome with
      | (tr, Thrown _) => tr
      | (tr, _) => tr ++ proxy rest
      end
  end.

(** The translation decision that the end handler takes, read off its
    exits: the first [return] is Drop, the two others Substitute, the final
    [console.log(data)] PassThrough. *)
Definition decision (request : JSValue) (data : jsstring) : TranslationDecision :=
  match JSON_parse data with
  | Throw _ => PassThrough
  | Normal response =>
      match request_method request, request_id request, method_not_found response with
      | Normal method, Normal requestId, Normal true =>
          if strict_equals requestId JSUndefined then
            match ToString method with
            | Normal _ => Drop
            | Throw _ => PassThrough
            end
          else if negb (truthy request) then PassThrough
          else if strict_equals method (JSString (js "prompts/list")) then
            Substitute (JSON_stringify (empty_result requestId (js "prompts")))
          else if strict_equals method (JSString (js "resources/list")) then
            Substitute (JSON_stringify (empty_result requestId (js "resources")))
          else PassThrough
      | _, _, _ => PassThrough
      end
  end.

End Proxy.

(** ** Start-up and termination

    The top level of index.js: the check of the command line, the parsing
    of the server URL, the registration of the handlers, the note of the
    start.  [new URL(text)] is the platform's: it gives the parts of the URL
    or throws. *)

Inductive OsSignal : Type := SIGTERM | SIGINT.

(** What the running process receives: a line of standard input, with the
    outcome of its request as far as it comes before the process ends; or a
    signal. *)
Inductive Input : Type :=
| Line (line : jsstring) (outcome : HttpOutcome)
| Kill (s : OsSignal).

Fixpoint lines_before_signal (input : list Input) : list (jsstring * HttpOutcome) :=
  match input with
  | [] => []
  | Line line outcome :: rest => (line, outcome) :: lines_before_signal rest
  | Kill _ :: _ => []
  end.

Fixpoint signalled (input : list Input) : bool :=
  match input with
  | [] => false
  | Line _ _ :: rest => signalled rest
  | Kill _ :: _ => true
  end.

Section Program.

Context {platform : Platform}.
Variable URL_new : jsstring -> Completion URL.

(** The three lines of [if (!serverUrl) { ... }]. *)
Definition usage : list Event :=
  events (console_error (js "Error: MCP server URL required") ;;
          console_error (js "Usage: mcp-http-proxy <mcp-server-url>") ;;
          console_error (js "Example: mcp-http-proxy https://example.com/mcp")).

(** The process once the handlers are registered: the trace, and the status
    given to [process.exit], if it is called.  A signal closes the
    interface and exits with status 0 (both handlers are the same).  An
    exception that leaves a handler ends the process with status 1 (the stack
    trace that Node prints is not part of the trace). *)
Fixpoint serve (url : URL) (input : list Input) : list Event * option N :=
  match input with
  | [] => ([], None)
  | Kill _ :: _ => ([], Some 0%N)
  | Line line outcome :: rest =>
      match rl_on_line url line outcome with
      | (tr, Thrown _) => (tr, Some 1%N)
      | (tr, _) => let (tr', status) := serve url rest in (tr ++ tr', status)
      end
  end.

(** The program, from [process.argv[2]] ([None] when the argument is
    missing) and what the process receives. *)
Definition main (argv2 : option jsstring) (input : list Input)
  : list Event * option N :=
  let serverUrl :=
    match argv2 with
    | Some text => JSString text
    | None => JSUndefined
    end in
  if negb (truthy serverUrl) then (usage, Some 1%N)
  else
    match argv2 with
    | None => (usage, Some 1%N)
    | Some text =>
        match URL_new text with
        | Throw _ =>
            (events (console_error (js "Error: Invalid URL: " ++ text)), Some 1%N)
        | Normal url =>
            let (tr, status) := serve url input in
            (events (process_stderr_write (js "MCP HTTP Proxy started: " ++ text ++ LF))
             ++ tr, status)
        end
    end.

End Program.

(** The notes that the end handler writes for the operator. *)
Definition parse_error_note (e : JSError) : Event :=
  Stderr (js "[PROXY] Parse error: " ++ message e ++ LF).

Definition dropped_note (method_text : jsstring) : Event :=
  Stderr (js "[PROXY] Dropped -32601 error for notification: " ++ method_text ++ LF).

Definition converted_note (method_name : jsstring) : Event :=
  Stderr (js "[PROXY] Converted " ++ method_name ++ js " error to empty result" ++ LF).

(** ** Example messages *)

Module Example.

Definition url : URL :=
  {| url_protocol := js "https:";
     url_hostname := js "mcp.example.com";
     url_port := [];
     url_pathname := js "/mcp";
     url_search := [] |}.

Definition prompts_list_line : jsstring :=
  json_text "{'jsonrpc':'2.0','id':7,'method':'prompts/list'}".

Definition resources_list_null_id_line : jsstring :=
  json_text "{'jsonrpc':'2.0','id':null,'method':'resources/list'}".

Definition tools_call_line : jsstring :=
  json_text "{'jsonrpc':'2.0','id':3,'method':'tools/call','params':{'name':'search'}}".

Definition initialized_line : jsstring :=
  json_text "{'jsonrpc':'2.0','method':'notifications/initialized'}".

Definition no_method_line : jsstring := json_text "{'jsonrpc':'2.0'}".

Definition unprintable_method_line : jsstring :=
  json_text "{'jsonrpc':'2.0','method':{'toString':null}}".

Definition not_json_line : jsstring := js "not json at all".

Definition method_not_found_body : jsstring :=
  json_text "{'jsonrpc':'2.0','id':null,'error':{'code':-32601,'message':'Method not found'}}".

Definition invalid_params_body : jsstring :=
  json_text "{'jsonrpc':'2.0','id':3,'error':{'code':-32602,'message':'Invalid params'}}".

Definition result_body : jsstring :=
  json_text "{'jsonrpc':'2.0','id':3,'result':{'content':[]}}".

Definition html_body : jsstring := js "<html>502 Bad Gateway</html>".

(** A result printed on three lines. *)
Definition indented_body : jsstring :=
  json_text "{'jsonrpc':'2.0'," ++ LF ++ json_text " 'id':3," ++ LF
  ++ json_text " 'result':{}}".

(** The program on the reference platform. *)
Definition run (line : jsstring) (outcome : HttpOutcome) : list Event :=
  events (rl_on_line url line outcome).

(** A line of white space only: spaces, a tab, a no-break space. *)
Definition blank_line : jsstring := [0x20; 0x20; 0x9; 0xA0]%N.

(** A JSON-RPC batch. *)
Definition batch_line : jsstring :=
  json_text "[{'jsonrpc':'2.0','id':1,'method':'prompts/list'},{'jsonrpc':'2.0','id':2,'method':'tools/list'}]".

(** A line with a character outside ASCII, U+00E9. *)
Definition accented_line : jsstring :=
  json_text "{'jsonrpc':'2.0','id':4,'method':'caf" ++ [0xE9%N] ++ json_text "'}".

(** The bytes of a result with U+00E9 (bytes C3 A9) in it, in two parts:
    up to the first byte of that character, and from its second byte. *)
Definition accented_body_head : list N :=
  utf8_encode (json_text "{'jsonrpc':'2.0','id':3,'result':{'name':'caf") ++ [0xC3%N].

Definition accented_body_tail : list N :=
  [0xA9%N] ++ utf8_encode (json_text "'}}").

(** The same result as two texts, cut before the character U+00E9. *)
Definition accented_text_head : jsstring :=
  json_text "{'jsonrpc':'2.0','id':3,'result':{'name':'caf".

Definition accented_text_tail : jsstring := [0xE9%N] ++ json_text "'}}".


Definition server_text : jsstring := js "https://mcp.example.com/mcp".

(** [new URL] on the server text of the examples; any other text is taken
    as invalid. *)
Definition URL_new (text : jsstring) : Completion URL :=
  if jsstring_eqb text server_text then Normal url
  else Throw (TypeError (js "Invalid URL")).

End Example.

(** ** Properties *)

Section Properties.

Context {platform : Platform}.
Variable url : URL.

(** *** Strings *)

Lemma jsstring_eqb_eq : forall a b, jsstring_eqb a b = true <-> a = b.
Proof.
  induction a as [|x a IH]; destruct b as [|y b]; simpl; split; intro H;
    try reflexivity; try discriminate.
  - apply andb_true_iff in H. destruct H as [Hxy Hab].
    apply N.eqb_eq in Hxy. apply IH in Hab. subst. reflexivity.
  - inversion H; subst. rewrite N.eqb_refl. apply IH. reflexivity.
Qed.

Lemma trimStart_nil : forall s, trimStart s = [] <-> forallb is_trimmed s = true.
Proof.
  induction s as [|c s IH]; simpl; [tauto|].
  destruct (is_trimmed c); simpl; [exact IH|]. split; discriminate.
Qed.

Lemma trimStart_head : forall s c rest,
  trimStart s = c :: rest -> is_trimmed c = false.
Proof.
  induction s as [|d s IH]; simpl; intros c rest H; [discriminate|].
  destruct (is_trimmed d) eqn:E; [exact (IH _ _ H)|].
  inversion H; subst. exact E.
Qed.

(** A line is blank for the program when all its characters are white
    space or line terminators. *)
Lemma trim_blank : forall s, trim s = [] <-> forallb is_trimmed s = true.
Proof.
  intro s. unfold trim, trimEnd. split; intro H.
  - apply (f_equal (@rev N)) in H. rewrite rev_involutive in H. simpl in H.
    apply trimStart_nil in H.
    destruct (trimStart s) as [|c rest] eqn:E; [apply trimStart_nil; exact E|].
    pose proof (trimStart_head _ _ _ E) as Hc.
    rewrite forallb_forall in H.
    rewrite (H c) in Hc; [discriminate|].
    apply -> in_rev. left. reflexivity.
  - apply trimStart_nil in H. rewrite H. reflexivity.
Qed.

(** ASCII text is its own UTF-8 encoding, one byte per character. *)
Lemma utf8_encode_ascii : forall s,
  Forall (fun c => (c < 0x80)%N) s -> utf8_encode s = s.
Proof.
  induction 1 as [|c s Hc Hs IH]; [reflexivity|].
  cbn [utf8_encode].
  assert (Hh : is_high_surrogate c = false).
  { unfold is_high_surrogate. apply andb_false_iff. left. apply N.leb_gt. lia. }
  assert (Hl : is_low_surrogate c = false).
  { unfold is_low_surrogate. apply andb_false_iff. left. apply N.leb_gt. lia. }
  rewrite Hh, Hl, IH. unfold utf8_of_code_point.
  apply N.ltb_lt in Hc. rewrite Hc. reflexivity.
Qed.

Lemma Buffer_byteLength_ascii : forall s,
  Forall (fun c => (c < 0x80)%N) s -> Buffer_byteLength s = N.of_nat (List.length s).
Proof.
  intros s H. unfold Buffer_byteLength. rewrite (utf8_encode_ascii s H). reflexivity.
Qed.

(** *** The expressions of the end handler *)

Lemma Get_truthy : forall v name,
  truthy v = true ->
  Get v name = Normal (match field v name with Some w => w | None => JSUndefined end).
Proof.
  intros v name Hv. destruct v; simpl in *; try discriminate; reflexivity.
Qed.

Lemma request_method_value : forall request,
  request_method request = Normal (method_value request).
Proof.
  intro request. unfold request_method, method_value.
  destruct (truthy request) eqn:Ht; [apply Get_truthy; exact Ht | reflexivity].
Qed.

Lemma request_id_value : forall request,
  request_id request = Normal (id_value request).
Proof.
  intro request. unfold request_id, id_value.
  destruct (truthy request) eqn:Ht; [apply Get_truthy; exact Ht | reflexivity].
Qed.

(** On a value that has properties, the test of the handler is the
    specification's "contains an error object with code -32601". *)
Lemma method_not_found_object : forall properties,
  method_not_found (JSObject properties)
  = Normal (has_error_code (JSObject properties) (-32601)).
Proof.
  intro properties. unfold method_not_found, has_error_code, and_then, cbind.
  simpl Get. simpl field.
  destruct (own_property (js "error") properties) as [error|]; [|reflexivity].
  destruct error as [| |b|x|s|elements|error_properties]; try reflexivity.
  - destruct b; reflexivity.
  - simpl. destruct (negb _); reflexivity.
  - simpl. destruct s; reflexivity.
  - simpl.
    destruct (own_property (js "code") error_properties) as [code|]; [|reflexivity].
    destruct code; reflexivity.
Qed.

Lemma has_error_code_object : forall response code,
  has_error_code response code = true ->
  exists properties, response = JSObject properties.
Proof.
  intros response code H. destruct response; try discriminate H.
  eexists; reflexivity.
Qed.

Lemma method_not_found_true : forall response,
  has_error_code response (-32601) = true ->
  method_not_found response = Normal true.
Proof.
  intros response H. destruct (has_error_code_object _ _ H) as [properties ->].
  rewrite method_not_found_object. f_equal. exact H.
Qed.

Lemma method_not_found_other : forall response,
  has_error_code response (-32601) = false ->
  method_not_found response <> Normal true.
Proof.
  intros response H. destruct response; try discriminate.
  rewrite method_not_found_object, H. discriminate.
Qed.

Lemma method_not_found_iff : forall response,
  method_not_found response = Normal true <-> has_error_code response (-32601) = true.
Proof.
  intro response. split; [|apply method_not_found_true].
  intro H. destruct (has_error_code response (-32601)) eqn:E; [reflexivity|].
  exfalso. exact (method_not_found_other _ E H).
Qed.

(** *** The end handler, exit by exit *)

Lemma res_on_end_run : forall request data,
  res_on_end request data =
  match JSON_parse data with
  | Throw e => ([parse_error_note e; Stdout (data ++ LF)], Next tt)
  | Normal response =>
      match method_not_found response with
      | Throw e => ([parse_error_note e; Stdout (data ++ LF)], Next tt)
      | Normal false => ([Stdout (data ++ LF)], Next tt)
      | Normal true =>
          if strict_equals (id_value request) JSUndefined then
            match ToString (method_value request) with
            | Normal text => ([dropped_note text], Returned)
            | Throw e => ([parse_error_note e; Stdout (data ++ LF)], Next tt)
            end
          else if negb (truthy request) then ([Stdout (data ++ LF)], Next tt)
          else if strict_equals (method_value request) (JSString (js "prompts/list")) then
            ([Stdout (JSON_stringify (empty_result (id_value request) (js "prompts")) ++ LF);
              converted_note (js "prompts/list")], Returned)
          else if strict_equals (method_value request) (JSString (js "resources/list")) then
            ([Stdout (JSON_stringify (empty_result (id_value request) (js "resources")) ++ LF);
              converted_note (js "resources/list")], Returned)
          else ([Stdout (data ++ LF)], Next tt)
      end
  end.
Proof.
  intros request data. unfold res_on_end.
  destruct (JSON_parse data) as [response|e]; [|reflexivity].
  rewrite request_method_value, request_id_value.
  cbn [eval bind ret app].
  destruct (method_not_found response) as [[|]|e]; cbn [and_then cbind eval bind ret app];
    [|reflexivity|reflexivity].
  destruct (strict_equals (id_value request) JSUndefined).
  - cbn [when bind eval].
    destruct (ToString (method_value request)) as [text|e]; reflexivity.
  - cbn [when bind eval ret app and_then cbind].
    destruct (truthy request); [|reflexivity].
    cbn [negb when].
    destruct (strict_equals (method_value request) (JSString (js "prompts/list")));
      [reflexivity|].
    destruct (strict_equals (method_value request) (JSString (js "resources/list")));
      reflexivity.
Qed.

Lemma res_on_end_signal : forall request data e,
  signal (res_on_end request data) <> Thrown e.
Proof.
  intros request data e. rewrite res_on_end_run.
  repeat match goal with
         | |- context [match ?c with _ => _ end] => destruct c
         end; discriminate.
Qed.

(** The output of the end handler is the one of its decision. *)
Lemma res_on_end_decision : forall request data,
  stdout_writes (events (res_on_end request data))
  = match decision request data with
    | Drop => []
    | Substitute newResponse => [newResponse ++ LF]
    | PassThrough => [data ++ LF]
    end.
Proof.
  intros request data. rewrite res_on_end_run. unfold decision.
  rewrite request_method_value, request_id_value.
  repeat match goal with
         | |- context [match ?c with _ => _ end] => destruct c
         end; reflexivity.
Qed.

(** *** The line handler and the process *)

Lemma rl_on_line_blank : forall line outcome,
  trim line = [] -> rl_on_line url line outcome = ([], Next tt).
Proof.
  intros line outcome H. unfold rl_on_line. rewrite H. reflexivity.
Qed.

Lemma rl_on_line_events : forall line outcome,
  trim line <> [] ->
  events (rl_on_line url line outcome)
  = HttpRequest (isHttps url) (request_options url line) line
    :: match outcome with
       | Responded chunks =>
           events (res_on_end (parsed_request line) (response_body chunks))
       | Failed error_message => [Stderr (js "HTTP Error: " ++ error_message ++ LF)]
       | Unanswered => []
       end.
Proof.
  intros line outcome H. unfold rl_on_line.
  destruct (trim line) as [|c rest]; [contradiction|].
  cbn [truthy negb when bind ret emit app].
  destruct outcome as [chunks|error_message|].
  - destruct (res_on_end (parsed_request line) (response_body chunks)) as [tr [[]| |e]];
      reflexivity.
  - reflexivity.
  - reflexivity.
Qed.

(** No exception leaves the line handler or the handlers it installs. *)
Lemma rl_on_line_signal : forall line outcome,
  signal (rl_on_line url line outcome) = Next tt.
Proof.
  intros line outcome. unfold rl_on_line.
  destruct (trim line) as [|c rest]; [reflexivity|].
  cbn [truthy negb when bind ret emit app].
  destruct outcome as [chunks|error_message|]; try reflexivity.
  pose proof (res_on_end_signal (parsed_request line) (response_body chunks)) as Hs.
  destruct (res_on_end (parsed_request line) (response_body chunks)) as [tr [[]| |e]];
    try reflexivity.
  exfalso. exact (Hs e eq_refl).
Qed.

Lemma proxy_cons : forall line outcome rest,
  proxy url ((line, outcome) :: rest)
  = events (rl_on_line url line outcome) ++ proxy url rest.
Proof.
  intros line outcome rest. cbn [proxy].
  pose proof (rl_on_line_signal line outcome) as Hs.
  destruct (rl_on_line url line outcome) as [tr sg]. simpl in Hs. subst sg.
  reflexivity.
Qed.

Lemma proxy_app : forall earlier later,
  proxy url (earlier ++ later) = proxy url earlier ++ proxy url later.
Proof.
  induction earlier as [|[line outcome] earlier IH]; intro later.
  - reflexivity.
  - rewrite <- app_comm_cons, !proxy_cons, IH, app_assoc. reflexivity.
Qed.

Lemma http_requests_app : forall tr1 tr2,
  http_requests (tr1 ++ tr2) = http_requests tr1 ++ http_requests tr2.
Proof.
  induction tr1 as [|[https options body|text|text] tr1 IH]; intro tr2; simpl;
    rewrite ?IH; reflexivity.
Qed.

Lemma stdout_writes_app : forall tr1 tr2,
  stdout_writes (tr1 ++ tr2) = stdout_writes tr1 ++ stdout_writes tr2.
Proof.
  induction tr1 as [|[https options body|text|text] tr1 IH]; intro tr2; simpl;
    rewrite ?IH; reflexivity.
Qed.

(** The end handler starts no request. *)
Lemma res_on_end_no_request : forall request data,
  http_requests (events (res_on_end request data)) = [].
Proof.
  intros request data. rewrite res_on_end_run.
  repeat match goal with
         | |- context [match ?c with _ => _ end] => destruct c
         end; reflexivity.
Qed.

(** One request for a line that is not blank: its options, and the line as
    the body. *)
Lemma rl_on_line_requests : forall line outcome,
  trim line <> [] ->
  http_requests (events (rl_on_line url line outcome))
  = [(request_options url line, line)].
Proof.
  intros line outcome H. rewrite (rl_on_line_events _ _ H). cbn [http_requests].
  destruct outcome; rewrite ?res_on_end_no_request; reflexivity.
Qed.

(** *** The properties of the specification *)

(** C1. When the response parses and contains an [error] object with code
    -32601, and the request parsed to a message with an [id] field (so the
    notification rule does not apply) and the method [prompts/list], the
    exchange writes exactly one line to the output: the text that
    JSON.stringify gives for the object with [jsonrpc] "2.0", the [id] of the
    request and the [result] holding an empty [prompts] list.  The same for
    [resources/list], with an empty [resources] list.  The operator stream gets
    the note of the conversion. *)
Theorem C1_list_method_error_becomes_empty_result :
  forall line chunks request response id method_name list_name,
    In (method_name, list_name)
       [(js "prompts/list", js "prompts"); (js "resources/list", js "resources")] ->
    trim line <> [] ->
    JSON_parse line = Normal request ->
    field request (js "method") = Some (JSString method_name) ->
    field request (js "id") = Some id ->
    strict_equals id JSUndefined = false ->
    JSON_parse (response_body chunks) = Normal response ->
    has_error_code response (-32601) = true ->
    events (rl_on_line url line (Responded chunks))
    = [HttpRequest (isHttps url) (request_options url line) line;
       Stdout (JSON_stringify
                 (JSObject [(js "jsonrpc", JSString (js "2.0"));
                            (js "id", id);
                            (js "result", JSObject [(list_name, JSArray [])])])
               ++ LF);
       converted_note method_name].
Proof.
  intros line chunks request response id method_name list_name
         Hin Hline Hreq Hmethod Hid Hdefined Hresp Herr.
  rewrite (rl_on_line_events _ _ Hline). f_equal.
  rewrite res_on_end_run, Hresp, (method_not_found_true _ Herr).
  unfold parsed_request. rewrite Hreq.
  destruct request as [| | | | | |properties]; try discriminate Hmethod.
  unfold id_value, method_value. cbn [truthy negb]. rewrite Hid, Hmethod, Hdefined.
  destruct Hin as [E|[E|[]]]; inversion E; subst; reflexivity.
Qed.

(** A notification whose method can be printed: the -32601 response is
    dropped, and the note names the method. *)
Lemma printable_notification_error_is_dropped :
  forall line chunks request response text,
    trim line <> [] ->
    JSON_parse line = Normal request ->
    field request (js "id") = None ->
    ToString (method_value request) = Normal text ->
    JSON_parse (response_body chunks) = Normal response ->
    has_error_code response (-32601) = true ->
    events (rl_on_line url line (Responded chunks))
    = [HttpRequest (isHttps url) (request_options url line) line; dropped_note text].
Proof.
  intros line chunks request response text Hline Hreq Hid Htext Hresp Herr.
  rewrite (rl_on_line_events _ _ Hline). f_equal.
  rewrite res_on_end_run, Hresp, (method_not_found_true _ Herr).
  unfold parsed_request. rewrite Hreq.
  assert (Hundef : id_value request = JSUndefined).
  { unfold id_value. rewrite Hid. destruct (truthy request); reflexivity. }
  rewrite Hundef, Htext. reflexivity.
Qed.

(** A notification whose method cannot be printed: the template literal
    of the note throws, the exception is caught as a parse error, and the
    -32601 response reaches the output. *)
Lemma unprintable_notification_error_passes_through :
  forall line chunks request response e,
    trim line <> [] ->
    JSON_parse line = Normal request ->
    field request (js "id") = None ->
    ToString (method_value request) = Throw e ->
    JSON_parse (response_body chunks) = Normal response ->
    has_error_code response (-32601) = true ->
    events (rl_on_line url line (Responded chunks))
    = [HttpRequest (isHttps url) (request_options url line) line;
       parse_error_note e;
       Stdout (response_body chunks ++ LF)].
Proof.
  intros line chunks request response e Hline Hreq Hid Htext Hresp Herr.
  rewrite (rl_on_line_events _ _ Hline). f_equal.
  rewrite res_on_end_run, Hresp, (method_not_found_true _ Herr).
  unfold parsed_request. rewrite Hreq.
  assert (Hundef : id_value request = JSUndefined).
  { unfold id_value. rewrite Hid. destruct (truthy request); reflexivity. }
  rewrite Hundef, Htext. reflexivity.
Qed.


(** When the response parses and has no [error] object with code -32601,
    the exchange writes the text that the end handler finds in [data],
    followed by one line feed, whatever the request was. *)
Lemma other_responses_pass_through_as_text :
  forall line chunks response,
    trim line <> [] ->
    JSON_parse (response_body chunks) = Normal response ->
    has_error_code response (-32601) = false ->
    stdout_writes (events (rl_on_line url line (Responded chunks)))
    = [response_body chunks ++ LF].
Proof.
  intros line chunks response Hline Hresp Herr.
  rewrite (rl_on_line_events _ _ Hline). cbn [stdout_writes].
  rewrite res_on_end_run, Hresp.
  pose proof (method_not_found_other _ Herr) as Hother.
  destruct (method_not_found response) as [[|]|e]; [contradiction| |]; reflexivity.
Qed.

(** C4, as amended.  A line that fails to parse as JSON is still posted,
    once, as the body of a request.  The response is then passed through
    unchanged, unless it parses and contains an [error] object with code
    -32601: that response is dropped, and the note names the method
    "unknown".  No substitution takes place. *)
Theorem C4_unparsed_line_is_posted_and_error_dropped :
  forall line chunks e,
    trim line <> [] ->
    JSON_parse line = Throw e ->
    http_requests (events (rl_on_line url line (Responded chunks)))
    = [(request_options url line, line)]
    /\ stdout_writes (events (rl_on_line url line (Responded chunks)))
       = match JSON_parse (response_body chunks) with
         | Normal response =>
             if has_error_code response (-32601) then []
             else [response_body chunks ++ LF]
         | Throw _ => [response_body chunks ++ LF]
         end
    /\ (forall response,
          JSON_parse (response_body chunks) = Normal response ->
          has_error_code response (-32601) = true ->
          stderr_writes (events (rl_on_line url line (Responded chunks)))
          = [js "[PROXY] Dropped -32601 error for notification: unknown" ++ LF]).
Proof.
  intros line chunks e Hline Hreq. split; [apply rl_on_line_requests; exact Hline|].
  rewrite (rl_on_line_events _ _ Hline). cbn [stdout_writes stderr_writes].
  rewrite res_on_end_run. unfold parsed_request. rewrite Hreq.
  split.
  - destruct (JSON_parse (response_body chunks)) as [response|e']; [|reflexivity].
    destruct (has_error_code response (-32601)) eqn:Herr.
    + rewrite (method_not_found_true _ Herr). reflexivity.
    + pose proof (method_not_found_other _ Herr) as Hother.
      destruct (method_not_found response) as [[|]|e']; [contradiction| |]; reflexivity.
  - intros response Hresp Herr. rewrite Hresp, (method_not_found_true _ Herr).
    reflexivity.
Qed.

(** When the text in [data] fails to parse as JSON, the exchange reports
    the failure on the operator stream and writes that text, followed by one
    line feed; the process then handles the lines that follow. *)
Lemma unparsable_text_passes_through :
  forall earlier line chunks later e,
    trim line <> [] ->
    JSON_parse (response_body chunks) = Throw e ->
    events (rl_on_line url line (Responded chunks))
    = [HttpRequest (isHttps url) (request_options url line) line;
       parse_error_note e;
       Stdout (response_body chunks ++ LF)]
    /\ proxy url (earlier ++ (line, Responded chunks) :: later)
       = proxy url earlier
         ++ events (rl_on_line url line (Responded chunks))
         ++ proxy url later.
Proof.
  intros earlier line chunks later e Hline Hresp. split.
  - rewrite (rl_on_line_events _ _ Hline), res_on_end_run, Hresp. reflexivity.
  - rewrite proxy_app, proxy_cons. reflexivity.
Qed.

(** C6, as amended.  The method that the translation uses is "unknown" when
    the line failed to parse, and when it parsed to a falsy value ([null],
    [false], [0], the empty string).  When the line parsed to another value,
    the method is the [method] field of that value, and [undefined], not
    "unknown", when the field is absent. *)
Theorem C6_method_of_a_request :
  forall line,
    request_method (parsed_request line)
    = match JSON_parse line with
      | Throw _ => Normal (JSString (js "unknown"))
      | Normal request =>
          if truthy request then
            Normal (match field request (js "method") with
                    | Some m => m
                    | None => JSUndefined
                    end)
          else Normal (JSString (js "unknown"))
      end.
Proof.
  intro line. rewrite request_method_value. unfold parsed_request, method_value.
  destruct (JSON_parse line) as [request|e]; [|reflexivity].
  destruct (truthy request); reflexivity.
Qed.

(** C7. For a sequence of lines none of which is blank, the process starts
    one request per line, in order: a POST to the configured server, with the
    header Content-Type: application/json, a Content-Length that is the
    number of bytes of the line's UTF-8 encoding, and the line as the
    body. *)
Theorem C7_one_post_per_line :
  forall input,
    Forall (fun entry => trim (fst entry) <> []) input ->
    http_requests (proxy url input)
    = map (fun entry =>
             ({| hostname := url_hostname url;
                 port := if truthy (JSString (url_port url))
                         then JSString (url_port url)
                         else JSNumber (if isHttps url then 443 else 80);
                 path := url_pathname url ++ url_search url;
                 method := js "POST";
                 headers :=
                   {| Content_Type := js "application/json";
                      Content_Length :=
                        N.of_nat (List.length (utf8_encode (fst entry))) |} |},
              fst entry))
          input
    /\ List.length (http_requests (proxy url input)) = List.length input.
Proof.
  intros input Hall.
  assert (H : http_requests (proxy url input)
              = map (fun entry => (request_options url (fst entry), fst entry)) input).
  { induction Hall as [|[line outcome] input Hline Hall IH]; [reflexivity|].
    rewrite proxy_cons, http_requests_app, IH, (rl_on_line_requests _ _ Hline).
    reflexivity. }
  split.
  - exact H.
  - rewrite H. apply length_map.
Qed.


(** The writes of an exchange to the output, by the decision taken: none
    for a blank line, for a request that fails or is never answered, and for
    a dropped response; one, the substitute or the text in [data],
    otherwise. *)
Lemma exchange_writes_by_decision :
  forall line outcome,
    stdout_writes (events (rl_on_line url line outcome))
    = match trim line, outcome with
      | [], _ => []
      | _ :: _, Failed _ => []
      | _ :: _, Unanswered => []
      | _ :: _, Responded chunks =>
          match decision (parsed_request line) (response_body chunks) with
          | Drop => []
          | Substitute newResponse => [newResponse ++ LF]
          | PassThrough => [response_body chunks ++ LF]
          end
      end
    /\ (List.length (stdout_writes (events (rl_on_line url line outcome))) <= 1)%nat.
Proof.
  intros line outcome.
  assert (H : stdout_writes (events (rl_on_line url line outcome))
              = match trim line, outcome with
                | [], _ => []
                | _ :: _, Failed _ => []
                | _ :: _, Unanswered => []
                | _ :: _, Responded chunks =>
                    match decision (parsed_request line) (response_body chunks) with
                    | Drop => []
                    | Substitute newResponse => [newResponse ++ LF]
                    | PassThrough => [response_body chunks ++ LF]
                    end
                end).
  { destruct (trim line) as [|c rest] eqn:Htrim.
    - rewrite (rl_on_line_blank _ _ Htrim). reflexivity.
    - assert (Hline : trim line <> []) by (rewrite Htrim; discriminate).
      rewrite (rl_on_line_events _ _ Hline). cbn [stdout_writes].
      destruct outcome as [chunks|error_message|]; try reflexivity.
      apply res_on_end_decision. }
  split; [exact H|]. rewrite H.
  destruct (trim line), outcome; simpl; try lia.
  destruct (decision _ _); simpl; lia.
Qed.

(** C9. When the request of a line fails, the exchange reports the error on
    the operator stream and writes nothing to the output; the process then
    handles the lines that follow. *)
Theorem C9_transport_error_is_reported :
  forall earlier line error_message later,
    trim line <> [] ->
    events (rl_on_line url line (Failed error_message))
    = [HttpRequest (isHttps url) (request_options url line) line;
       Stderr (js "HTTP Error: " ++ error_message ++ LF)]
    /\ stdout_writes (events (rl_on_line url line (Failed error_message))) = []
    /\ proxy url (earlier ++ (line, Failed error_message) :: later)
       = proxy url earlier
         ++ events (rl_on_line url line (Failed error_message))
         ++ proxy url later.
Proof.
  intros earlier line error_message later Hline.
  rewrite (rl_on_line_events _ _ Hline). repeat split.
  rewrite proxy_app, proxy_cons, (rl_on_line_events _ _ Hline). reflexivity.
Qed.

(** C10. A request whose [id] field is [null] is a call: a response with
    error code -32601 is not dropped.  For an allow-listed method the output
    is the empty result with [id] null; for any other method it is the
    response body, as received. *)
Theorem C10_null_id_is_a_call :
  forall line chunks request response,
    trim line <> [] ->
    JSON_parse line = Normal request ->
    field request (js "id") = Some JSNull ->
    JSON_parse (response_body chunks) = Normal response ->
    has_error_code response (-32601) = true ->
    stdout_writes (events (rl_on_line url line (Responded chunks)))
    = [match allow_listed (field request (js "method")) with
       | Some list_name =>
           JSON_stringify
             (JSObject [(js "jsonrpc", JSString (js "2.0"));
                        (js "id", JSNull);
                        (js "result", JSObject [(list_name, JSArray [])])])
       | None => response_body chunks
       end ++ LF].
Proof.
  intros line chunks request response Hline Hreq Hid Hresp Herr.
  rewrite (rl_on_line_events _ _ Hline). cbn [stdout_writes].
  rewrite res_on_end_run, Hresp, (method_not_found_true _ Herr).
  unfold parsed_request. rewrite Hreq.
  destruct request as [| | | | | |properties]; try discriminate Hid.
  unfold id_value, method_value. cbn [truthy negb strict_equals]. rewrite Hid.
  cbn [strict_equals]. unfold allow_listed.
  destruct (field (JSObject properties) (js "method")) as [[| | | |name| |]|];
    try reflexivity.
  cbn [strict_equals].
  destruct (jsstring_eqb name (js "prompts/list")); [reflexivity|].
  destruct (jsstring_eqb name (js "resources/list")); reflexivity.
Qed.

End Properties.

(** ** The properties on the example messages, on the reference platform *)

Lemma C1_prompts_list_witness :
  events (rl_on_line Example.url Example.prompts_list_line
            (Responded [Example.method_not_found_body]))
  = [HttpRequest true (request_options Example.url Example.prompts_list_line)
       Example.prompts_list_line;
     Stdout (json_text "{'jsonrpc':'2.0','id':7,'result':{'prompts':[]}}" ++ LF);
     Stderr (js "[PROXY] Converted prompts/list error to empty result" ++ LF)].
Proof.
  etransitivity.
  - eapply (C1_list_method_error_becomes_empty_result Example.url)
      with (id := JSNumber 7) (method_name := js "prompts/list")
           (list_name := js "prompts").
    + left; reflexivity.
    + vm_compute; discriminate.
    + vm_compute; reflexivity.
    + reflexivity.
    + reflexivity.
    + reflexivity.
    + vm_compute; reflexivity.
    + reflexivity.
  - vm_compute; reflexivity.
Defined.

Lemma printable_notification_witness :
  events (rl_on_line Example.url Example.initialized_line
            (Responded [Example.method_not_found_body]))
  = [HttpRequest true (request_options Example.url Example.initialized_line)
       Example.initialized_line;
     Stderr (js "[PROXY] Dropped -32601 error for notification: notifications/initialized"
             ++ LF)].
Proof.
  etransitivity.
  - eapply (printable_notification_error_is_dropped Example.url)
      with (text := js "notifications/initialized").
    + vm_compute; discriminate.
    + vm_compute; reflexivity.
    + reflexivity.
    + reflexivity.
    + vm_compute; reflexivity.
    + reflexivity.
  - vm_compute; reflexivity.
Defined.


(** C2. The claim fails on a message without [id] whose [method] is an
    object with an own property [toString]: the response with error code
    -32601 is written to the output, after a note of a parse error. *)
Theorem C2_unprintable_method_error_reaches_output :
  (exists request,
      Reference.parse Example.unprintable_method_line = Normal request
      /\ field request (js "id") = None)
  /\ (exists response,
         Reference.parse Example.method_not_found_body = Normal response
         /\ has_error_code response (-32601) = true)
  /\ events (rl_on_line Example.url Example.unprintable_method_line
               (Responded [Example.method_not_found_body]))
     = [HttpRequest true (request_options Example.url Example.unprintable_method_line)
          Example.unprintable_method_line;
        Stderr (js "[PROXY] Parse error: Cannot convert object to primitive value" ++ LF);
        Stdout (Example.method_not_found_body ++ LF)].
Proof.
  split; [|split].
  - eexists. split; [vm_compute; reflexivity | reflexivity].
  - eexists. split; [vm_compute; reflexivity | reflexivity].
  - etransitivity.
    + eapply (unprintable_notification_error_passes_through Example.url).
      * vm_compute; discriminate.
      * vm_compute; reflexivity.
      * reflexivity.
      * reflexivity.
      * vm_compute; reflexivity.
      * reflexivity.
    + vm_compute; reflexivity.
Qed.

Lemma other_error_text_witness :
  stdout_writes (events (rl_on_line Example.url Example.tools_call_line
                           (Responded [Example.invalid_params_body])))
  = [Example.invalid_params_body ++ LF].
Proof.
  etransitivity.
  - eapply (other_responses_pass_through_as_text Example.url).
    + vm_compute; discriminate.
    + vm_compute; reflexivity.
    + reflexivity.
  - vm_compute; reflexivity.
Defined.

(** C4, the counterexample: the line is not JSON, the response has error
    code -32601, and nothing is written to the output. *)
Lemma C4_counterexample :
  Reference.parse Example.not_json_line
  = Throw (SyntaxError (js "Unexpected token in JSON"))
  /\ (exists response,
         Reference.parse Example.method_not_found_body = Normal response
         /\ has_error_code response (-32601) = true)
  /\ events (rl_on_line Example.url Example.not_json_line
               (Responded [Example.method_not_found_body]))
     = [HttpRequest true (request_options Example.url Example.not_json_line)
          Example.not_json_line;
        Stderr (js "[PROXY] Dropped -32601 error for notification: unknown" ++ LF)]
  /\ stdout_writes (events (rl_on_line Example.url Example.not_json_line
                              (Responded [Example.method_not_found_body])))
     <> [Example.method_not_found_body ++ LF].
Proof.
  split; [vm_compute; reflexivity|]. split.
  - eexists. split; [vm_compute; reflexivity | reflexivity].
  - split; [vm_compute; reflexivity | vm_compute; discriminate].
Qed.

Lemma C4_unparsed_line_witness :
  http_requests (events (rl_on_line Example.url Example.not_json_line
                           (Responded [Example.html_body])))
  = [(request_options Example.url Example.not_json_line, Example.not_json_line)]
  /\ stdout_writes (events (rl_on_line Example.url Example.not_json_line
                              (Responded [Example.html_body])))
     = [Example.html_body ++ LF].
Proof.
  assert (Hline : trim Example.not_json_line <> []) by (vm_compute; discriminate).
  assert (Hreq : JSON_parse Example.not_json_line
                 = Throw (SyntaxError (js "Unexpected token in JSON")))
    by (vm_compute; reflexivity).
  destruct (C4_unparsed_line_is_posted_and_error_dropped Example.url
              Example.not_json_line [Example.html_body] _ Hline Hreq)
    as [Hposted [Hwritten _]].
  split; [exact Hposted|]. rewrite Hwritten. vm_compute; reflexivity.
Defined.

(** C6, the counterexample: the line parses to an object without a [method]
    field, and the method of the request is [undefined], as the note of the
    drop shows. *)
Lemma C6_counterexample :
  (exists request,
      Reference.parse Example.no_method_line = Normal request
      /\ field request (js "method") = None)
  /\ request_method (parsed_request Example.no_method_line) = Normal JSUndefined
  /\ request_method (parsed_request Example.no_method_line)
     <> Normal (JSString (js "unknown"))
  /\ stderr_writes (events (rl_on_line Example.url Example.no_method_line
                              (Responded [Example.method_not_found_body])))
     = [js "[PROXY] Dropped -32601 error for notification: undefined" ++ LF].
Proof.
  split.
  - eexists. split; [vm_compute; reflexivity | reflexivity].
  - split; [vm_compute; reflexivity|].
    split; [vm_compute; discriminate | vm_compute; reflexivity].
Qed.

Lemma C7_three_lines_witness :
  map snd (http_requests
             (proxy Example.url
                [(Example.prompts_list_line, Responded [Example.method_not_found_body]);
                 (Example.not_json_line, Failed (js "connect ECONNREFUSED"));
                 (Example.initialized_line, Unanswered)]))
  = [Example.prompts_list_line; Example.not_json_line; Example.initialized_line]
  /\ map (fun r => Content_Length (headers (fst r)))
         (http_requests
            (proxy Example.url
               [(Example.prompts_list_line, Responded [Example.method_not_found_body]);
                (Example.not_json_line, Failed (js "connect ECONNREFUSED"));
                (Example.initialized_line, Unanswered)]))
     = [48; 15; 54]%N.
Proof.
  destruct (C7_one_post_per_line Example.url
              [(Example.prompts_list_line, Responded [Example.method_not_found_body]);
               (Example.not_json_line, Failed (js "connect ECONNREFUSED"));
               (Example.initialized_line, Unanswered)]) as [Hrequests _].
  - repeat constructor; vm_compute; discriminate.
  - rewrite Hrequests. split; vm_compute; reflexivity.
Defined.

Lemma C9_refused_connection_witness :
  events (rl_on_line Example.url Example.tools_call_line
            (Failed (js "connect ECONNREFUSED 127.0.0.1:443")))
  = [HttpRequest true (request_options Example.url Example.tools_call_line)
       Example.tools_call_line;
     Stderr (js "HTTP Error: connect ECONNREFUSED 127.0.0.1:443" ++ LF)].
Proof.
  assert (Hline : trim Example.tools_call_line <> []) by (vm_compute; discriminate).
  destruct (C9_transport_error_is_reported Example.url
              [] Example.tools_call_line (js "connect ECONNREFUSED 127.0.0.1:443") []
              Hline) as [Hevents _].
  rewrite Hevents. vm_compute; reflexivity.
Defined.

Lemma C10_null_id_witness :
  stdout_writes (events (rl_on_line Example.url Example.resources_list_null_id_line
                           (Responded [Example.method_not_found_body])))
  = [json_text "{'jsonrpc':'2.0','id':null,'result':{'resources':[]}}" ++ LF].
Proof.
  etransitivity.
  - eapply (C10_null_id_is_a_call Example.url).
    + vm_compute; discriminate.
    + vm_compute; reflexivity.
    + reflexivity.
    + vm_compute; reflexivity.
    + reflexivity.
  - vm_compute; reflexivity.
Defined.


(** ** Further properties of the handlers and of the process *)

Section Further.

Context {platform : Platform}.
Variable url : URL.

(** *** Lines and requests *)

Lemma not_blank : forall line,
  trim line <> [] <-> forallb is_trimmed line = false.
Proof.
  intro line. rewrite <- Bool.not_true_iff_false, <- trim_blank. tauto.
Qed.

Lemma blank_line_events : forall line outcome,
  forallb is_trimmed line = true ->
  rl_on_line url line outcome = ([], Next tt).
Proof.
  intros line outcome H. apply rl_on_line_blank. apply trim_blank. exact H.
Qed.

Lemma exchange_events : forall line outcome,
  events (rl_on_line url line outcome)
  = if forallb is_trimmed line then []
    else HttpRequest (isHttps url) (request_options url line) line
         :: match outcome with
            | Responded chunks =>
                events (res_on_end (parsed_request line) (response_body chunks))
            | Failed error_message => events (req_on_error error_message)
            | Unanswered => []
            end.
Proof.
  intros line outcome. destruct (forallb is_trimmed line) eqn:E.
  - rewrite (blank_line_events line outcome E). reflexivity.
  - apply not_blank in E. rewrite (rl_on_line_events _ _ _ E).
    destruct outcome; reflexivity.
Qed.

Lemma proxy_flat_map : forall input,
  proxy url input
  = flat_map (fun entry => events (rl_on_line url (fst entry) (snd entry))) input.
Proof.
  induction input as [|[line outcome] input IH]; [reflexivity|].
  rewrite proxy_cons, IH. reflexivity.
Qed.

(** A line made of white space and line terminators only, the empty line
    included, starts no request and writes nothing to either stream: a run
    has the trace of the run without its blank lines. *)
Theorem blank_lines_are_invisible : forall input,
  proxy url input
  = proxy url (filter (fun entry => negb (forallb is_trimmed (fst entry))) input).
Proof.
  induction input as [|[line outcome] input IH]; [reflexivity|].
  cbn [filter fst]. destruct (forallb is_trimmed line) eqn:E; cbn [negb].
  - rewrite proxy_cons, (blank_line_events line outcome E). exact IH.
  - rewrite !proxy_cons, IH. reflexivity.
Qed.

Lemma exchange_requests : forall line outcome,
  http_requests (events (rl_on_line url line outcome))
  = if forallb is_trimmed line then [] else [(request_options url line, line)].
Proof.
  intros line outcome. destruct (forallb is_trimmed line) eqn:E.
  - rewrite (blank_line_events line outcome E). reflexivity.
  - apply rl_on_line_requests. apply not_blank. exact E.
Qed.

(** Whatever the input, blank lines included, the requests of a run are
    those of the lines that are not blank, in the order of the lines, each
    with its line as the body. *)
Theorem requests_follow_the_lines : forall input,
  http_requests (proxy url input)
  = map (fun line => (request_options url line, line))
        (filter (fun line => negb (forallb is_trimmed line)) (map fst input)).
Proof.
  induction input as [|[line outcome] input IH]; [reflexivity|].
  rewrite proxy_cons, http_requests_app, IH, exchange_requests.
  cbn [map fst filter]. destruct (forallb is_trimmed line); reflexivity.
Qed.

Lemma In_http_requests : forall tr https options body,
  In (HttpRequest https options body) tr -> In (options, body) (http_requests tr).
Proof.
  induction tr as [|[h o b|text|text] tr IH]; intros https options body H.
  - contradiction.
  - destruct H as [H|H]; [inversion H; left; reflexivity | right; eauto].
  - destruct H as [H|H]; [discriminate | simpl; eauto].
  - destruct H as [H|H]; [discriminate | simpl; eauto].
Qed.

Lemma exchange_request_event : forall line outcome https options body,
  In (HttpRequest https options body) (events (rl_on_line url line outcome)) ->
  https = isHttps url /\ options = request_options url line /\ body = line.
Proof.
  intros line outcome https options body H.
  rewrite exchange_events in H.
  destruct (forallb is_trimmed line); [contradiction|].
  destruct H as [H|H]; [inversion H; auto|].
  apply In_http_requests in H.
  destruct outcome as [chunks|error_message|].
  - rewrite res_on_end_no_request in H. contradiction.
  - simpl in H. contradiction.
  - contradiction.
Qed.

Lemma proxy_In : forall input e,
  In e (proxy url input) ->
  exists line outcome,
    In (line, outcome) input /\ In e (events (rl_on_line url line outcome)).
Proof.
  intros input e H. rewrite proxy_flat_map in H. apply in_flat_map in H.
  destruct H as [[line outcome] [Hin He]]. exists line, outcome. split; assumption.
Qed.

(** Every request of a run is a POST of JSON to the configured server.  The
    https module is used for the protocol [https:] only.  An explicit port is
    used as it is; without one the port is 443 with https and 80 with any
    other protocol.  The Content-Length is the byte length of the body of the
    same request. *)
Theorem every_request_goes_to_the_configured_server :
  forall input https options body,
    In (HttpRequest https options body) (proxy url input) ->
    https = jsstring_eqb (url_protocol url) (js "https:")
    /\ hostname options = url_hostname url
    /\ port options = match url_port url with
                      | [] => JSNumber (if https then 443 else 80)
                      | _ :: _ => JSString (url_port url)
                      end
    /\ path options = url_pathname url ++ url_search url
    /\ method options = js "POST"
    /\ Content_Type (headers options) = js "application/json"
    /\ Content_Length (headers options) = Buffer_byteLength body.
Proof.
  intros input https options body H.
  apply proxy_In in H. destruct H as [line [outcome [_ H]]].
  apply exchange_request_event in H. destruct H as [-> [-> ->]].
  unfold request_options, isHttps. cbn [hostname port path method headers
    Content_Type Content_Length truthy].
  destruct (url_port url); repeat split; reflexivity.
Qed.

(** *** The output stream *)

Lemma decision_substitute : forall request data text,
  decision request data = Substitute text ->
  text = JSON_stringify (empty_result (id_value request) (js "prompts"))
  \/ text = JSON_stringify (empty_result (id_value request) (js "resources")).
Proof.
  intros request data text. unfold decision.
  rewrite request_method_value, request_id_value.
  repeat match goal with
         | |- context [match ?c with _ => _ end] => destruct c
         end; intro H; try discriminate H; inversion H; auto.
Qed.

Lemma exchange_output : forall line outcome text,
  In text (stdout_writes (events (rl_on_line url line outcome))) ->
  exists chunks,
    outcome = Responded chunks
    /\ (text = response_body chunks ++ LF
        \/ text = JSON_stringify (empty_result (id_value (parsed_request line))
                                    (js "prompts")) ++ LF
        \/ text = JSON_stringify (empty_result (id_value (parsed_request line))
                                    (js "resources")) ++ LF).
Proof.
  intros line outcome text H. rewrite exchange_events in H.
  destruct (forallb is_trimmed line); [contradiction|].
  cbn [stdout_writes] in H.
  destruct outcome as [chunks|error_message|]; try contradiction.
  exists chunks. split; [reflexivity|].
  rewrite res_on_end_decision in H.
  destruct (decision (parsed_request line) (response_body chunks)) as [|t|] eqn:D.
  - contradiction.
  - destruct H as [<-|[]]. destruct (decision_substitute _ _ _ D) as [->| ->]; auto.
  - destruct H as [<-|[]]. auto.
Qed.

Lemma stdout_writes_In : forall tr text,
  In text (stdout_writes tr) <-> In (Stdout text) tr.
Proof.
  induction tr as [|[h o b|t|t] tr IH]; intro text; simpl.
  - tauto.
  - rewrite IH. split; [auto|]. intros [H|H]; [discriminate|exact H].
  - rewrite IH. split; intros [H|H]; auto; [left; congruence | left; congruence].
  - rewrite IH. split; [auto|]. intros [H|H]; [discriminate|exact H].
Qed.

(** The output stream carries responses only: every text written to it in
    a run is the body of a response of that run, or the empty result made for
    the line of that response, followed by one line feed.  No note, banner or
    error text is ever written there. *)
Theorem output_carries_only_responses : forall input text,
  In text (stdout_writes (proxy url input)) ->
  exists line chunks,
    In (line, Responded chunks) input
    /\ (text = response_body chunks ++ LF
        \/ text = JSON_stringify (empty_result (id_value (parsed_request line))
                                    (js "prompts")) ++ LF
        \/ text = JSON_stringify (empty_result (id_value (parsed_request line))
                                    (js "resources")) ++ LF).
Proof.
  intros input text H. apply stdout_writes_In, proxy_In in H.
  destruct H as [line [outcome [Hin H]]].
  apply stdout_writes_In, exchange_output in H.
  destruct H as [chunks [-> H]]. exists line, chunks. split; assumption.
Qed.

Lemma exchange_counts : forall line outcome,
  (List.length (stdout_writes (events (rl_on_line url line outcome)))
   <= List.length (http_requests (events (rl_on_line url line outcome))) <= 1)%nat.
Proof.
  intros line outcome. rewrite exchange_requests, exchange_events.
  destruct (forallb is_trimmed line); [simpl; lia|].
  cbn [stdout_writes]. destruct outcome as [chunks|error_message|]; simpl; try lia.
  rewrite res_on_end_decision. destruct (decision _ _); simpl; lia.
Qed.

(** A run never calls [console.log] more often than it has started
    requests, and never starts more requests than it has read lines.  (A
    call writes one text and a line feed; the text may hold line feeds of
    its own.) *)
Theorem never_more_output_than_requests : forall input,
  (List.length (stdout_writes (proxy url input))
   <= List.length (http_requests (proxy url input))
   <= List.length input)%nat.
Proof.
  induction input as [|[line outcome] input IH]; [simpl; lia|].
  rewrite proxy_cons, stdout_writes_app, http_requests_app, !length_app.
  pose proof (exchange_counts line outcome). simpl. lia.
Qed.

Lemma stderr_writes_of_end : forall request data,
  stdout_writes (events (res_on_end request data)) = [] ->
  exists text, events (res_on_end request data) = [dropped_note text].
Proof.
  intros request data. rewrite res_on_end_run.
  repeat match goal with
         | |- context [match ?c with _ => _ end] => destruct c
         end; intro H; try discriminate H.
  eexists; reflexivity.
Qed.

(** No response is lost in silence: when the exchange of an answered
    request writes nothing to the output, its only other effect is the note
    of the drop on the operator stream. *)
Theorem no_response_is_lost_in_silence : forall line chunks,
  stdout_writes (events (rl_on_line url line (Responded chunks))) = [] ->
  forallb is_trimmed line = false ->
  exists text,
    events (rl_on_line url line (Responded chunks))
    = [HttpRequest (isHttps url) (request_options url line) line;
       Stderr (js "[PROXY] Dropped -32601 error for notification: " ++ text ++ LF)].
Proof.
  intros line chunks H E. rewrite exchange_events, E in *.
  cbn [stdout_writes] in H.
  destruct (stderr_writes_of_end _ _ H) as [text ->]. exists text. reflexivity.
Qed.

(** *** Requests and responses that are not objects *)

(** A line that parses to a falsy value ([null], [false], [0], the empty
    string) is handled as a line that does not parse: the end handler does
    what it does for an unset request. *)
Theorem falsy_request_is_handled_as_unparsed : forall request data,
  truthy request = false ->
  res_on_end request data = res_on_end JSUndefined data.
Proof.
  intros request data H. rewrite !res_on_end_run.
  unfold id_value, method_value. rewrite H. reflexivity.
Qed.

(** A line that parses to a value that is not an object (a batch, which is
    an array; a number; a string; [true]) has no [id] and no [method] for the
    handler: a response with error code -32601 is dropped, and the note names
    the method [undefined]. *)
Theorem request_that_is_not_an_object_is_a_notification :
  forall line chunks request response,
    forallb is_trimmed line = false ->
    JSON_parse line = Normal request ->
    truthy request = true ->
    (forall properties, request <> JSObject properties) ->
    JSON_parse (response_body chunks) = Normal response ->
    has_error_code response (-32601) = true ->
    events (rl_on_line url line (Responded chunks))
    = [HttpRequest (isHttps url) (request_options url line) line;
       dropped_note (js "undefined")].
Proof.
  intros line chunks request response E Hreq Ht Hobj Hresp Herr.
  rewrite exchange_events, E. f_equal.
  rewrite res_on_end_run, Hresp, (method_not_found_true _ Herr).
  unfold parsed_request. rewrite Hreq.
  unfold id_value, method_value. rewrite Ht.
  destruct request as [| | | | | |properties]; try reflexivity.
  exfalso. exact (Hobj properties eq_refl).
Qed.

(** A body that parses to a value that is not an object is passed through:
    without a note for a number, a string, a boolean or an array, and after
    the note of a parse error for [null], of which no property can be read. *)
Theorem body_that_is_not_an_object_passes_through : forall request data response,
  JSON_parse data = Normal response ->
  (forall properties, response <> JSObject properties) ->
  res_on_end request data
  = (match response with
     | JSNull =>
         [parse_error_note
            (TypeError (js "Cannot read properties of null (reading 'error')"))]
     | JSUndefined =>
         [parse_error_note
            (TypeError (js "Cannot read properties of undefined (reading 'error')"))]
     | _ => []
     end ++ [Stdout (data ++ LF)], Next tt).
Proof.
  intros request data response Hresp Hobj.
  rewrite res_on_end_run, Hresp.
  destruct response as [| | | | | |properties]; try reflexivity.
  exfalso. exact (Hobj properties eq_refl).
Qed.

(** *** The body and its length *)

Lemma fold_res_on_data : forall chunks data,
  fold_left res_on_data chunks data = data ++ List.concat chunks.
Proof.
  induction chunks as [|chunk chunks IH]; intro data; simpl.
  - rewrite app_nil_r. reflexivity.
  - rewrite IH. unfold res_on_data. rewrite app_assoc. reflexivity.
Qed.

(** The end handler works on the texts of the chunks joined in the order of
    their arrival: two responses whose chunk texts join to the same text are
    handled in the same way, wherever the chunks are cut. *)
Theorem only_the_joined_chunks_matter : forall line chunks chunks',
  List.concat chunks = List.concat chunks' ->
  response_body chunks = List.concat chunks
  /\ rl_on_line url line (Responded chunks) = rl_on_line url line (Responded chunks').
Proof.
  intros line chunks chunks' H.
  assert (Hbody : forall c, response_body c = List.concat c).
  { intro c. unfold response_body. rewrite fold_res_on_data. reflexivity. }
  split; [apply Hbody|].
  unfold rl_on_line. rewrite !Hbody, H. reflexivity.
Qed.

Lemma utf8_of_code_unit_length : forall c,
  (c < 0x10000)%N ->
  (1 <= List.length (utf8_of_code_point c) <= 3)%nat
  /\ (List.length (utf8_of_code_point c) = 1%nat -> (c < 0x80)%N).
Proof.
  intros c Hc. unfold utf8_of_code_point.
  destruct (c <? 0x80)%N eqn:E1; [apply N.ltb_lt in E1; simpl; split; [lia|auto]|].
  destruct (c <? 0x800)%N eqn:E2; [simpl; split; [lia|discriminate]|].
  apply N.ltb_lt in Hc. rewrite Hc. simpl. split; [lia|discriminate].
Qed.

Lemma utf8_of_pair_length : forall c d,
  List.length (utf8_of_code_point (0x10000 + (c - 0xD800) * 1024 + (d - 0xDC00))%N)
  = 4%nat.
Proof.
  intros c d. unfold utf8_of_code_point.
  assert (H1 : (0x10000 + (c - 0xD800) * 1024 + (d - 0xDC00) <? 0x80)%N = false)
    by (apply N.ltb_ge; lia).
  assert (H2 : (0x10000 + (c - 0xD800) * 1024 + (d - 0xDC00) <? 0x800)%N = false)
    by (apply N.ltb_ge; lia).
  assert (H3 : (0x10000 + (c - 0xD800) * 1024 + (d - 0xDC00) <? 0x10000)%N = false)
    by (apply N.ltb_ge; lia).
  rewrite H1, H2, H3. reflexivity.
Qed.

Lemma utf8_encode_length : forall n s,
  (List.length s <= n)%nat ->
  Forall (fun c => (c < 0x10000)%N) s ->
  (List.length s <= List.length (utf8_encode s) <= 3 * List.length s)%nat
  /\ (List.length (utf8_encode s) = List.length s -> Forall (fun c => (c < 0x80)%N) s).
Proof.
  induction n as [|n IH]; intros s Hn Hs.
  - destruct s; [split; [simpl; lia | constructor] | simpl in Hn; lia].
  - destruct s as [|c rest]; [split; [simpl; lia | constructor]|].
    inversion Hs as [|? ? Hc Hrest]; subst. cbn [utf8_encode].
    destruct (is_high_surrogate c) eqn:Hh.
    + destruct rest as [|d rest']; [split; [simpl; lia | simpl; discriminate]|].
      destruct (is_low_surrogate d) eqn:Hl.
      * inversion Hrest as [|? ? Hd Hrest']; subst.
        destruct (IH rest') as [Hb _]; [simpl in Hn; lia | exact Hrest' |].
        rewrite length_app, utf8_of_pair_length. simpl List.length.
        split; [lia | intro; lia].
      * destruct (IH (d :: rest')) as [Hb _]; [simpl in *; lia | exact Hrest |].
        rewrite length_app. simpl List.length in *. split; [lia | intro; lia].
    + destruct (IH rest) as [Hb Heq]; [simpl in Hn; lia | exact Hrest |].
      destruct (is_low_surrogate c) eqn:Hl.
      * rewrite length_app. simpl List.length. split; [lia | intro; lia].
      * destruct (utf8_of_code_unit_length c Hc) as [Hu Hone].
        rewrite length_app. simpl List.length. split; [lia|].
        intro E. constructor; [apply Hone; lia | apply Heq; lia].
Qed.

(** The Content-Length of a request is at least the length of the line in
    code units and at most three times that; it is the length of the line
    exactly when the line is ASCII. *)
Theorem content_length_of_a_line : forall line,
  Forall (fun c => (c < 0x10000)%N) line ->
  (N.of_nat (List.length line)
   <= Content_Length (headers (request_options url line))
   <= 3 * N.of_nat (List.length line))%N
  /\ (Content_Length (headers (request_options url line)) = N.of_nat (List.length line)
      <-> Forall (fun c => (c < 0x80)%N) line).
Proof.
  intros line Hline. cbn [request_options headers Content_Length].
  unfold Buffer_byteLength.
  destruct (utf8_encode_length (List.length line) line (le_n _) Hline) as [Hb Heq].
  split; [lia|]. split.
  - intro E. apply Heq. lia.
  - intro Hascii. rewrite (utf8_encode_ascii line Hascii). reflexivity.
Qed.

End Further.

(** ** Properties of the start-up and of the termination *)

Section ProgramProperties.

Context {platform : Platform}.
Variable URL_new : jsstring -> Completion URL.

Lemma serve_run : forall url input,
  serve url input
  = (proxy url (lines_before_signal input),
     if signalled input then Some 0%N else None).
Proof.
  intros url input. induction input as [|[line outcome|s] input IH]; try reflexivity.
  cbn [serve lines_before_signal signalled]. rewrite proxy_cons, IH.
  pose proof (rl_on_line_signal url line outcome) as Hs.
  destruct (rl_on_line url line outcome) as [tr sg]. simpl in Hs. subst sg.
  reflexivity.
Qed.

(** Without a usable server URL the program serves nothing: when the
    argument is missing or empty it writes the three lines of the usage, when
    [new URL] refuses it it writes the error with the text of the argument;
    all to the operator stream.  It exits with status 1, and the input plays
    no part. *)
Theorem no_service_without_a_server_url : forall argv2 input,
  argv2 = None \/ argv2 = Some []
  \/ (exists text e, argv2 = Some text /\ URL_new text = Throw e) ->
  main URL_new argv2 input
  = (match argv2 with
     | Some (c :: text) =>
         [Stderr (js "Error: Invalid URL: " ++ c :: text ++ LF)]
     | _ =>
         [Stderr (js "Error: MCP server URL required" ++ LF);
          Stderr (js "Usage: mcp-http-proxy <mcp-server-url>" ++ LF);
          Stderr (js "Example: mcp-http-proxy https://example.com/mcp" ++ LF)]
     end, Some 1%N)
  /\ stdout_writes (fst (main URL_new argv2 input)) = []
  /\ http_requests (fst (main URL_new argv2 input)) = [].
Proof.
  intros argv2 input [->|[->|[text [e [-> He]]]]].
  - repeat split.
  - repeat split.
  - unfold main. destruct text as [|c text]; [repeat split|].
    cbn [truthy negb]. rewrite He. repeat split.
Qed.

Lemma In_lines_before_signal : forall input line outcome,
  In (line, outcome) (lines_before_signal input) -> In (Line line outcome) input.
Proof.
  induction input as [|[l o|s] input IH]; intros line outcome H.
  - contradiction.
  - destruct H as [H|H]; [inversion H; left; reflexivity | right; apply IH; exact H].
  - contradiction.
Qed.

Lemma http_requests_proxy : forall url input,
  http_requests (proxy url input)
  = map (fun line => (request_options url line, line))
        (filter (fun line => negb (forallb is_trimmed line)) (map fst input)).
Proof.
  intros url input. induction input as [|[line outcome] input IH]; [reflexivity|].
  rewrite proxy_cons, http_requests_app, IH, exchange_requests.
  cbn [map fst filter]. destruct (forallb is_trimmed line); reflexivity.
Qed.

(** Once an http or https server URL is accepted, the first write of the
    program is the note of the start, on the operator stream.  The requests
    are those of the lines read before the first signal that are not blank,
    in the order of the lines.  Every text on the output stream comes from
    the exchange of a line that got a response: the joined chunks or an
    empty result, and a line feed.  The program exits with status 0 on a
    signal and calls no exit otherwise: never a failure status.  (The
    protocol is http or https: for these [new URL] escapes the path, and
    [httpModule.request] accepts the options of every line.) *)
Theorem service_with_a_server_url : forall text url input,
  text <> [] ->
  URL_new text = Normal url ->
  url_protocol url = js "http:" \/ url_protocol url = js "https:" ->
  hd_error (fst (main URL_new (Some text) input))
  = Some (Stderr (js "MCP HTTP Proxy started: " ++ text ++ LF))
  /\ snd (main URL_new (Some text) input)
     = (if signalled input then Some 0%N else None)
  /\ http_requests (fst (main URL_new (Some text) input))
     = map (fun line => (request_options url line, line))
           (filter (fun line => negb (forallb is_trimmed line))
                   (map fst (lines_before_signal input)))
  /\ (forall written,
        In written (stdout_writes (fst (main URL_new (Some text) input))) ->
        exists line chunks,
          In (Line line (Responded chunks)) input
          /\ (written = List.concat chunks ++ LF
              \/ written = JSON_stringify (empty_result (id_value (parsed_request line))
                                             (js "prompts")) ++ LF
              \/ written = JSON_stringify (empty_result (id_value (parsed_request line))
                                             (js "resources")) ++ LF)).
Proof.
  intros text url input Htext Hurl _.
  assert (H : main URL_new (Some text) input
              = (Stderr (js "MCP HTTP Proxy started: " ++ text ++ LF)
                 :: proxy url (lines_before_signal input),
                 if signalled input then Some 0%N else None)).
  { unfold main. destruct text as [|c text]; [contradiction|].
    cbn [truthy negb]. rewrite Hurl, serve_run. reflexivity. }
  rewrite H. cbn [fst snd hd_error http_requests stdout_writes].
  repeat split.
  - apply http_requests_proxy.
  - intros written Hin. apply stdout_writes_In, proxy_In in Hin.
    destruct Hin as [line [outcome [Hline Hin]]].
    apply stdout_writes_In, exchange_output in Hin.
    destruct Hin as [chunks [-> Hin]]. exists line, chunks.
    split; [apply In_lines_before_signal; exact Hline|].
    unfold response_body in Hin. rewrite fold_res_on_data in Hin. exact Hin.
Qed.

Lemma lines_before_signal_app : forall earlier s later,
  lines_before_signal (earlier ++ Kill s :: later) = lines_before_signal earlier
  /\ signalled (earlier ++ Kill s :: later) = true.
Proof.
  induction earlier as [|[line outcome|s'] earlier IH]; intros s later.
  - split; reflexivity.
  - destruct (IH s later) as [H1 H2]. cbn [app lines_before_signal signalled].
    rewrite H1, H2. split; reflexivity.
  - split; reflexivity.
Qed.

(** After SIGTERM or SIGINT nothing more happens: what the process receives
    after the signal changes neither the trace nor the status, and a line
    that follows the signal is never sent to the server. *)
Theorem nothing_happens_after_a_signal : forall argv2 earlier s later,
  main URL_new argv2 (earlier ++ Kill s :: later)
  = main URL_new argv2 (earlier ++ [Kill s]).
Proof.
  intros argv2 earlier s later. unfold main.
  destruct (negb (truthy _)); [reflexivity|].
  destruct argv2 as [text|]; [|reflexivity].
  destruct (URL_new text) as [url|e]; [|reflexivity].
  rewrite !serve_run.
  destruct (lines_before_signal_app earlier s later) as [-> ->].
  destruct (lines_before_signal_app earlier s []) as [-> ->].
  reflexivity.
Qed.

End ProgramProperties.

(** ** The further properties on the example messages *)

Lemma configured_server_witness :
  port (request_options Example.url Example.accented_line) = JSNumber 443
  /\ Content_Length (headers (request_options Example.url Example.accented_line))
     = Buffer_byteLength Example.accented_line.
Proof.
  destruct (every_request_goes_to_the_configured_server Example.url
              [(Example.accented_line, Unanswered)] true
              (request_options Example.url Example.accented_line)
              Example.accented_line) as [_ [_ [Hport [_ [_ [_ Hlength]]]]]].
  - vm_compute. left. reflexivity.
  - split; [rewrite Hport; reflexivity | exact Hlength].
Defined.

Lemma output_is_a_response_witness :
  exists line chunks,
    In (line, Responded chunks)
       [(Example.prompts_list_line, Responded [Example.method_not_found_body])]
    /\ (json_text "{'jsonrpc':'2.0','id':7,'result':{'prompts':[]}}" ++ LF
        = response_body chunks ++ LF
        \/ json_text "{'jsonrpc':'2.0','id':7,'result':{'prompts':[]}}" ++ LF
           = JSON_stringify (empty_result (id_value (parsed_request line))
                               (js "prompts")) ++ LF
        \/ json_text "{'jsonrpc':'2.0','id':7,'result':{'prompts':[]}}" ++ LF
           = JSON_stringify (empty_result (id_value (parsed_request line))
                               (js "resources")) ++ LF).
Proof.
  apply (output_carries_only_responses Example.url).
  vm_compute. left. reflexivity.
Defined.

Lemma dropped_with_a_note_witness :
  exists text,
    events (rl_on_line Example.url Example.initialized_line
              (Responded [Example.method_not_found_body]))
    = [HttpRequest (isHttps Example.url)
         (request_options Example.url Example.initialized_line)
         Example.initialized_line;
       Stderr (js "[PROXY] Dropped -32601 error for notification: " ++ text ++ LF)].
Proof.
  apply (no_response_is_lost_in_silence Example.url).
  - vm_compute; reflexivity.
  - vm_compute; reflexivity.
Defined.

Lemma falsy_request_witness :
  res_on_end JSNull Example.method_not_found_body
  = res_on_end JSUndefined Example.method_not_found_body.
Proof.
  apply falsy_request_is_handled_as_unparsed. reflexivity.
Defined.

Lemma batch_request_witness :
  events (rl_on_line Example.url Example.batch_line
            (Responded [Example.method_not_found_body]))
  = [HttpRequest true (request_options Example.url Example.batch_line)
       Example.batch_line;
     Stderr (js "[PROXY] Dropped -32601 error for notification: undefined" ++ LF)].
Proof.
  etransitivity.
  - eapply (request_that_is_not_an_object_is_a_notification Example.url).
    + vm_compute; reflexivity.
    + vm_compute; reflexivity.
    + reflexivity.
    + intros properties; discriminate.
    + vm_compute; reflexivity.
    + reflexivity.
  - vm_compute; reflexivity.
Defined.

Lemma null_body_witness :
  res_on_end (JSObject []) (js "null")
  = ([Stderr (js "[PROXY] Parse error: Cannot read properties of null (reading 'error')"
              ++ LF);
      Stdout (js "null" ++ LF)], Next tt).
Proof.
  etransitivity.
  - eapply body_that_is_not_an_object_passes_through with (response := JSNull).
    + vm_compute; reflexivity.
    + intros properties; discriminate.
  - vm_compute; reflexivity.
Defined.

Lemma two_chunks_witness :
  rl_on_line Example.url Example.tools_call_line
    (Responded [json_text "{'jsonrpc':'2.0','id':3,"; json_text "'result':{'content':[]}}"])
  = rl_on_line Example.url Example.tools_call_line (Responded [Example.result_body]).
Proof.
  apply (only_the_joined_chunks_matter Example.url). reflexivity.
Defined.

Lemma accented_line_length_witness :
  (N.of_nat (List.length Example.accented_line)
   <= Content_Length (headers (request_options Example.url Example.accented_line))
   <= 3 * N.of_nat (List.length Example.accented_line))%N
  /\ List.length Example.accented_line = 40%nat
  /\ Content_Length (headers (request_options Example.url Example.accented_line)) = 41%N.
Proof.
  split; [|split; vm_compute; reflexivity].
  apply (content_length_of_a_line Example.url).
  vm_compute. repeat constructor.
Defined.

Lemma invalid_url_witness :
  main Example.URL_new (Some (js "not a url"))
    [Line Example.prompts_list_line (Responded [Example.method_not_found_body])]
  = ([Stderr (js "Error: Invalid URL: not a url" ++ LF)], Some 1%N).
Proof.
  destruct (no_service_without_a_server_url Example.URL_new (Some (js "not a url"))
              [Line Example.prompts_list_line (Responded [Example.method_not_found_body])])
    as [H _].
  - right. right. eexists. eexists. split; [reflexivity | vm_compute; reflexivity].
  - rewrite H. vm_compute; reflexivity.
Defined.

Lemma started_service_witness :
  hd_error
    (fst (main Example.URL_new (Some Example.server_text)
            [Line Example.prompts_list_line (Responded [Example.method_not_found_body]);
             Kill SIGTERM;
             Line Example.tools_call_line (Responded [Example.result_body])]))
  = Some (Stderr (js "MCP HTTP Proxy started: https://mcp.example.com/mcp" ++ LF))
  /\ snd (main Example.URL_new (Some Example.server_text)
            [Line Example.prompts_list_line (Responded [Example.method_not_found_body]);
             Kill SIGTERM;
             Line Example.tools_call_line (Responded [Example.result_body])])
     = Some 0%N
  /\ map snd
       (http_requests
          (fst (main Example.URL_new (Some Example.server_text)
                  [Line Example.prompts_list_line
                     (Responded [Example.method_not_found_body]);
                   Kill SIGTERM;
                   Line Example.tools_call_line (Responded [Example.result_body])])))
     = [Example.prompts_list_line].
Proof.
  assert (Htext : Example.server_text <> []) by (vm_compute; discriminate).
  assert (Hurl : Example.URL_new Example.server_text = Normal Example.url)
    by (vm_compute; reflexivity).
  assert (Hprotocol : url_protocol Example.url = js "http:"
                      \/ url_protocol Example.url = js "https:")
    by (right; reflexivity).
  pose proof (service_with_a_server_url Example.URL_new Example.server_text Example.url
                [Line Example.prompts_list_line
                   (Responded [Example.method_not_found_body]);
                 Kill SIGTERM;
                 Line Example.tools_call_line (Responded [Example.result_body])]
                Htext Hurl Hprotocol) as [Hfirst [Hstatus [Hrequests _]]].
  split; [|split].
  - etransitivity; [exact Hfirst | reflexivity].
  - etransitivity; [exact Hstatus | reflexivity].
  - etransitivity; [exact (f_equal (map snd) Hrequests) | vm_compute; reflexivity].
Defined.

(** ** The bytes and the lines of the output stream *)

Section Streams.

Context {platform : Platform}.
Variable url : URL.

Lemma response_body_concat : forall chunks,
  response_body chunks = List.concat chunks.
Proof.
  intro chunks. unfold response_body. rewrite fold_res_on_data. reflexivity.
Qed.

Lemma line_feeds_app : forall a b,
  line_feeds (a ++ b) = (line_feeds a + line_feeds b)%nat.
Proof.
  intros a b. unfold line_feeds. rewrite filter_app, length_app. reflexivity.
Qed.

Lemma line_feeds_line : forall text,
  line_feeds (text ++ LF) = S (line_feeds text).
Proof.
  intro text. rewrite line_feeds_app. unfold line_feeds at 2. simpl. lia.
Qed.


(** C8, as amended.  An exchange makes at most one write to the output.  It
    makes none exactly for a blank line, for a request that fails or is
    never answered, and for a dropped response.  The one write is a text and
    one line feed, the text being the joined chunks of the response or an
    empty result: it puts on the output one line feed more than the text
    holds, so one line for a text without line feeds, and several for a
    body that holds line feeds. *)
Theorem C8_at_most_one_write_per_line :
  forall line outcome,
    (List.length (stdout_writes (events (rl_on_line url line outcome))) <= 1)%nat
    /\ (stdout_writes (events (rl_on_line url line outcome)) = [] <->
        trim line = []
        \/ (exists error_message, outcome = Failed error_message)
        \/ outcome = Unanswered
        \/ (exists chunks text,
               outcome = Responded chunks
               /\ events (rl_on_line url line outcome)
                  = [HttpRequest (isHttps url) (request_options url line) line;
                     dropped_note text]))
    /\ (forall written,
          stdout_writes (events (rl_on_line url line outcome)) = [written] ->
          exists chunks text,
            outcome = Responded chunks
            /\ written = text ++ LF
            /\ (text = List.concat chunks
                \/ text = JSON_stringify (empty_result (id_value (parsed_request line))
                                            (js "prompts"))
                \/ text = JSON_stringify (empty_result (id_value (parsed_request line))
                                            (js "resources")))
            /\ line_feeds (List.concat (stdout_writes (events (rl_on_line url line outcome))))
               = S (line_feeds text)).
Proof.
  intros line outcome. split; [|split].
  - pose proof (exchange_counts url line outcome). lia.
  - split.
    + intro H. destruct (forallb is_trimmed line) eqn:E.
      * left. apply trim_blank. exact E.
      * right. rewrite exchange_events, E in H. cbn [stdout_writes] in H.
        destruct outcome as [chunks|error_message|].
        -- right. right. destruct (stderr_writes_of_end _ _ H) as [text Ht].
           exists chunks, text. split; [reflexivity|].
           rewrite exchange_events, E, Ht. reflexivity.
        -- left. exists error_message. reflexivity.
        -- right. left. reflexivity.
    + intros [H|[[error_message ->]|[->|[chunks [text [-> H]]]]]].
      * rewrite (rl_on_line_blank _ _ _ H). reflexivity.
      * rewrite exchange_events. destruct (forallb is_trimmed line); reflexivity.
      * rewrite exchange_events. destruct (forallb is_trimmed line); reflexivity.
      * rewrite H. reflexivity.
  - intros written H.
    assert (Hin : In written (stdout_writes (events (rl_on_line url line outcome))))
      by (rewrite H; left; reflexivity).
    apply exchange_output in Hin. destruct Hin as [chunks [-> Hin]].
    rewrite response_body_concat in Hin. rewrite H.
    cbn [List.concat]. rewrite app_nil_r.
    destruct Hin as [->|[->| ->]]; eexists chunks, _;
      (split; [reflexivity|]); (split; [reflexivity|]);
      (split; [|apply line_feeds_line]); auto.
Qed.

End Streams.

(** ** Bytes in, bytes out

    What the decoding of the chunks does to the bytes of a body.  UTF-8
    encoding followed by decoding gives a well-formed string back, so a
    body whose chunks each hold whole characters keeps its bytes on the way
    through the proxy. *)

Ltac nlia := zify; Z.to_euclidean_division_equations; lia.

Ltac settle_test :=
  match goal with
  | |- context [N.ltb ?a ?b] =>
      first [ replace (N.ltb a b) with true by (symmetry; apply N.ltb_lt; nlia)
            | replace (N.ltb a b) with false by (symmetry; apply N.ltb_ge; nlia) ]
  | |- context [N.leb ?a ?b] =>
      first [ replace (N.leb a b) with true by (symmetry; apply N.leb_le; nlia)
            | replace (N.leb a b) with false by (symmetry; apply N.leb_gt; nlia) ]
  | |- context [N.eqb ?a ?b] =>
      first [ replace (N.eqb a b) with true by (symmetry; apply N.eqb_eq; nlia)
            | replace (N.eqb a b) with false by (symmetry; apply N.eqb_neq; nlia) ]
  end.

Ltac run_decoder :=
  repeat (settle_test;
          cbn -[N.add N.mul N.div N.modulo N.ltb N.leb N.eqb N.sub]).

(** The decoder reads back what the encoder wrote, one code point at a
    time. *)
Lemma decode_one_byte : forall p rest,
  (p < 0x80)%N ->
  utf8_decode_from utf8_idle (utf8_of_code_point p ++ rest)
  = code_units_of p ++ utf8_decode_from utf8_idle rest.
Proof.
  intros p rest Hp. unfold utf8_of_code_point, code_units_of, utf8_idle.
  run_decoder. unfold utf8_lead. run_decoder. reflexivity.
Qed.

Lemma decode_two_bytes : forall p rest,
  (0x80 <= p < 0x800)%N ->
  utf8_decode_from utf8_idle (utf8_of_code_point p ++ rest)
  = code_units_of p ++ utf8_decode_from utf8_idle rest.
Proof.
  intros p rest Hp. unfold utf8_of_code_point, utf8_idle.
  run_decoder. unfold utf8_lead. run_decoder.
  match goal with
  | |- context [code_units_of ?x] => replace x with p by nlia
  end.
  reflexivity.
Qed.

Lemma decode_three_bytes : forall p rest,
  (0x800 <= p < 0x10000)%N ->
  ~ (0xD800 <= p <= 0xDFFF)%N ->
  utf8_decode_from utf8_idle (utf8_of_code_point p ++ rest)
  = code_units_of p ++ utf8_decode_from utf8_idle rest.
Proof.
  intros p rest Hp Hs. unfold utf8_of_code_point, utf8_idle.
  run_decoder. unfold utf8_lead. run_decoder.
  destruct (N.eq_dec (p / 4096) 0) as [E0|E0];
    destruct (N.eq_dec (p / 4096) 13) as [E13|E13];
    run_decoder;
    match goal with
    | |- context [code_units_of ?x] => replace x with p by nlia
    end;
    reflexivity.
Qed.

Lemma decode_four_bytes : forall p rest,
  (0x10000 <= p < 0x110000)%N ->
  utf8_decode_from utf8_idle (utf8_of_code_point p ++ rest)
  = code_units_of p ++ utf8_decode_from utf8_idle rest.
Proof.
  intros p rest Hp. unfold utf8_of_code_point, utf8_idle.
  run_decoder. unfold utf8_lead. run_decoder.
  destruct (N.eq_dec (p / 262144) 0) as [E0|E0];
    destruct (N.eq_dec (p / 262144) 4) as [E4|E4];
    run_decoder;
    match goal with
    | |- context [code_units_of ?x] => replace x with p by nlia
    end;
    reflexivity.
Qed.

Lemma surrogate_bounds : forall c,
  (is_high_surrogate c = true <-> (0xD800 <= c <= 0xDBFF)%N)
  /\ (is_low_surrogate c = true <-> (0xDC00 <= c <= 0xDFFF)%N).
Proof.
  intro c. unfold is_high_surrogate, is_low_surrogate.
  rewrite !andb_true_iff, !N.leb_le. tauto.
Qed.

Lemma decode_code_unit : forall c rest,
  is_high_surrogate c = false ->
  is_low_surrogate c = false ->
  (c < 0x10000)%N ->
  utf8_decode_from utf8_idle (utf8_of_code_point c ++ rest)
  = c :: utf8_decode_from utf8_idle rest.
Proof.
  intros c rest Hh Hl Hc.
  assert (Hs : ~ (0xD800 <= c <= 0xDFFF)%N).
  { intro H. destruct (surrogate_bounds c) as [Hhi Hlo].
    destruct (N.le_gt_cases c 0xDBFF) as [Hle|Hgt].
    - assert (E : is_high_surrogate c = true) by (apply Hhi; lia). congruence.
    - assert (E : is_low_surrogate c = true) by (apply Hlo; lia). congruence. }
  assert (Hunits : code_units_of c = [c]).
  { unfold code_units_of. apply N.ltb_lt in Hc. rewrite Hc. reflexivity. }
  change (c :: utf8_decode_from utf8_idle rest)
    with ([c] ++ utf8_decode_from utf8_idle rest).
  rewrite <- Hunits.
  destruct (N.lt_ge_cases c 0x80) as [H1|H1]; [apply decode_one_byte; exact H1|].
  destruct (N.lt_ge_cases c 0x800) as [H2|H2]; [apply decode_two_bytes; lia|].
  apply decode_three_bytes; [lia | exact Hs].
Qed.

Lemma decode_pair : forall c d rest,
  is_high_surrogate c = true ->
  is_low_surrogate d = true ->
  utf8_decode_from utf8_idle
    (utf8_of_code_point (0x10000 + (c - 0xD800) * 1024 + (d - 0xDC00))%N ++ rest)
  = c :: d :: utf8_decode_from utf8_idle rest.
Proof.
  intros c d rest Hc Hd.
  apply surrogate_bounds in Hc. apply surrogate_bounds in Hd.
  rewrite decode_four_bytes by lia.
  unfold code_units_of.
  replace (0x10000 + (c - 0xD800) * 1024 + (d - 0xDC00) <? 0x10000)%N with false
    by (symmetry; apply N.ltb_ge; lia).
  replace (0xD800 + (0x10000 + (c - 0xD800) * 1024 + (d - 0xDC00) - 0x10000) / 1024)%N
    with c by nlia.
  replace (0xDC00 + (0x10000 + (c - 0xD800) * 1024 + (d - 0xDC00) - 0x10000) mod 1024)%N
    with d by nlia.
  reflexivity.
Qed.

(** By induction on the length: decoding undoes encoding, and encoding
    distributes over concatenation after a well-formed string. *)
Lemma well_formed_steps : forall n s,
  (List.length s <= n)%nat ->
  well_formed s = true ->
  (forall rest,
      utf8_decode_from utf8_idle (utf8_encode s ++ rest)
      = s ++ utf8_decode_from utf8_idle rest)
  /\ (forall t, utf8_encode (s ++ t) = utf8_encode s ++ utf8_encode t).
Proof.
  induction n as [|n IH]; intros s Hn Hs.
  - destruct s; [split; reflexivity | simpl in Hn; lia].
  - destruct s as [|c s1]; [split; reflexivity|].
    cbn [well_formed] in Hs. cbn [utf8_encode app].
    destruct (is_high_surrogate c) eqn:Hh.
    + destruct s1 as [|d s2]; [discriminate|].
      apply andb_true_iff in Hs. destruct Hs as [Hd Hs]. cbn [app]. rewrite Hd.
      destruct (IH s2) as [Hdecode Happ]; [simpl in Hn; lia | exact Hs |].
      split.
      * intro rest. rewrite <- app_assoc, (decode_pair c d _ Hh Hd), Hdecode.
        reflexivity.
      * intro t. rewrite Happ, app_assoc. reflexivity.
    + apply andb_true_iff in Hs. destruct Hs as [Hs Hrest].
      apply andb_true_iff in Hs. destruct Hs as [Hl Hc].
      apply negb_true_iff in Hl. apply N.ltb_lt in Hc. rewrite Hl.
      destruct (IH s1) as [Hdecode Happ]; [simpl in Hn; lia | exact Hrest |].
      split.
      * intro rest. rewrite <- app_assoc, (decode_code_unit c _ Hh Hl Hc), Hdecode.
        reflexivity.
      * intro t. rewrite Happ, app_assoc. reflexivity.
Qed.

Lemma Buffer_toString_utf8_encode : forall s,
  well_formed s = true -> Buffer_toString (utf8_encode s) = s.
Proof.
  intros s Hs. unfold Buffer_toString.
  destruct (well_formed_steps (List.length s) s (le_n _) Hs) as [Hdecode _].
  specialize (Hdecode []). rewrite !app_nil_r in Hdecode. exact Hdecode.
Qed.

Lemma utf8_encode_app : forall s t,
  well_formed s = true -> utf8_encode (s ++ t) = utf8_encode s ++ utf8_encode t.
Proof.
  intros s t Hs.
  destruct (well_formed_steps (List.length s) s (le_n _) Hs) as [_ Happ]. apply Happ.
Qed.

Lemma utf8_encode_concat_line : forall texts,
  forallb well_formed texts = true ->
  utf8_encode (List.concat texts ++ LF)
  = List.concat (map utf8_encode texts) ++ [0x0A%N].
Proof.
  induction texts as [|t texts IH]; intro H; [reflexivity|].
  cbn [forallb] in H. apply andb_true_iff in H. destruct H as [Ht H].
  cbn [List.concat map]. rewrite <- !app_assoc, (utf8_encode_app _ _ Ht), (IH H).
  reflexivity.
Qed.

Lemma decoded_chunks : forall texts,
  forallb well_formed texts = true ->
  map Buffer_toString (map utf8_encode texts) = texts.
Proof.
  induction texts as [|t texts IH]; intro H; [reflexivity|].
  cbn [forallb] in H. apply andb_true_iff in H. destruct H as [Ht H].
  cbn [map]. rewrite (Buffer_toString_utf8_encode _ Ht), (IH H). reflexivity.
Qed.

Section WholeCharacters.

Context {platform : Platform}.
Variable url : URL.

(** When every chunk of the body is the UTF-8 encoding of a well-formed
    text, and the joined text is JSON other than a Method not found error,
    the bytes written to the output are the bytes received, followed by a
    line feed. *)
Theorem whole_characters_keep_the_bytes : forall line texts response,
  trim line <> [] ->
  forallb well_formed texts = true ->
  JSON_parse (List.concat texts) = Normal response ->
  has_error_code response (-32601) = false ->
  stdout_bytes (events (rl_on_line url line (received (map utf8_encode texts))))
  = List.concat (map utf8_encode texts) ++ [0x0A%N].
Proof.
  intros line texts response Hline Htexts Hresp Herr.
  unfold received. rewrite (decoded_chunks _ Htexts). unfold stdout_bytes.
  assert (Hbody : response_body texts = List.concat texts).
  { unfold response_body. rewrite fold_res_on_data. reflexivity. }
  rewrite <- Hbody in Hresp.
  rewrite (other_responses_pass_through_as_text url line texts response Hline Hresp Herr).
  cbn [flat_map]. rewrite app_nil_r, Hbody. apply utf8_encode_concat_line. exact Htexts.
Qed.

End WholeCharacters.

Lemma whole_characters_witness :
  stdout_bytes (events (rl_on_line Example.url Example.tools_call_line
                          (received (map utf8_encode
                                       [Example.accented_text_head;
                                        Example.accented_text_tail]))))
  = Example.accented_body_head ++ Example.accented_body_tail ++ [0x0A%N].
Proof.
  etransitivity;
    [ eapply whole_characters_keep_the_bytes;
      [ vm_compute; discriminate
      | vm_compute; reflexivity
      | vm_compute; reflexivity
      | reflexivity ]
    | vm_compute; reflexivity ].
Defined.

(** C3.  The claim fails when a chunk of the body ends inside a character.
    The bytes of the body are well-formed UTF-8 and give a JSON result
    without an [error] field.  Received in one chunk, they are written to the
    output as they are, with a line feed.  Received in two chunks, the first
    ending after the byte C3 of the character C3 A9, each chunk is decoded on
    its own: both halves of the character become U+FFFD, the text still
    parses, and the output gets EF BF BD EF BF BD in place of C3 A9. *)
Theorem C3_body_cut_inside_a_character_is_changed :
  stdout_bytes (events (rl_on_line Example.url Example.tools_call_line
                          (received [Example.accented_body_head
                                     ++ Example.accented_body_tail])))
  = Example.accented_body_head ++ Example.accented_body_tail ++ [0x0A%N]
  /\ (exists response,
         JSON_parse (response_body (map Buffer_toString
                                      [Example.accented_body_head;
                                       Example.accented_body_tail]))
         = Normal response
         /\ has_error_code response (-32601) = false)
  /\ stdout_bytes (events (rl_on_line Example.url Example.tools_call_line
                             (received [Example.accented_body_head;
                                        Example.accented_body_tail])))
     = utf8_encode (json_text "{'jsonrpc':'2.0','id':3,'result':{'name':'caf")
       ++ [0xEF; 0xBF; 0xBD; 0xEF; 0xBF; 0xBD]%N
       ++ utf8_encode (json_text "'}}") ++ [0x0A%N]
  /\ stdout_bytes (events (rl_on_line Example.url Example.tools_call_line
                             (received [Example.accented_body_head;
                                        Example.accented_body_tail])))
     <> Example.accented_body_head ++ Example.accented_body_tail ++ [0x0A%N].
Proof.
  split; [vm_compute; reflexivity|]. split.
  - eexists. split; [vm_compute; reflexivity | reflexivity].
  - split; [vm_compute; reflexivity | vm_compute; discriminate].
Qed.



(** C8, the counterexample: the exchange of one line passes a body of three
    lines through, and three lines are written to the output. *)
Lemma C8_counterexample :
  stdout_writes (events (rl_on_line Example.url Example.tools_call_line
                           (Responded [Example.indented_body])))
  = [Example.indented_body ++ LF]
  /\ line_feeds (List.concat
                   (stdout_writes (events (rl_on_line Example.url Example.tools_call_line
                                             (Responded [Example.indented_body])))))
     = 3%nat
  /\ ~ (line_feeds (List.concat
                      (stdout_writes
                         (events (rl_on_line Example.url Example.tools_call_line
                                    (Responded [Example.indented_body])))))
        <= 1)%nat.
Proof.
  split; [vm_compute; reflexivity|].
  split; [vm_compute; reflexivity | vm_compute; lia].
Qed.
